(** * Jellyfin show organizer: a shallow embedding of
      [organize_shows.py] and [organize_fringe.py]

    The two scripts rename and copy video files into the layout a media
    server expects.  Season, episode and title are read off the file name
    with regular expressions; the destination name is assembled from them.

    Definitions:
    - [PyStr]   : the string methods the scripts call ([lower], [strip],
                  [endswith], [rfind]) and [pathlib]'s [suffix];
    - [Re]      : the part of Python's [re] the patterns of the scripts
                  use, as a backtracking matcher over positions with
                  capture marks, and a declarative reading of a match;
    - [Py]      : exceptions, results, paths, the interface to the
                  operating system, and the monad of state and exceptions;
    - [OrganizeShows], [OrganizeFringe] : the two scripts;
    - [Toy], [Samples], [Report], [Runs] : a small world with injected
                  faults, sample profiles, how a transcript is read, and
                  concrete runs.

    Properties:
    - [ReFacts]  : the matcher is sound for the declarative reading,
                   leaves foreign marks alone, has fuel enough, and does
                   not see letter case under [re.IGNORECASE];
    - [Matcher]  : [parse_episode_info];
    - [Driver], [FringeDriver] : the loops of the two scripts;
    - [Run]      : whole runs: counts, dry run, failures, exit status,
                   layout of the destination, scan of the source.
    - [StrFacts], [MoreMatcher], [MoreRun] : further properties, stated
                   with the notions of [Notions]: trimming, suffixes and
                   the order of names; what the matchers return and raise;
                   show keys, exit status, empty input, processing order,
                   what a transcript reports and what a run calls.

    Characters are Rocq's [ascii], read as the code points 0..255.  The
    character classes are Python's Unicode classes cut down to that
    range. *)

From Stdlib Require Import List String Ascii Bool Arith Lia.
From Stdlib Require Import NArith Permutation Sorted.
Import ListNotations.

Local Open Scope string_scope.
Local Open Scope list_scope.
Local Open Scope nat_scope.

(** String concatenation, as [+] on [str] and as f-string assembly. *)
Infix "+++" := String.append (right associativity, at level 60).

(* ------------------------------------------------------------------ *)
(** ** Python strings *)

Module PyStr.

Definition code (c : ascii) : nat := nat_of_ascii c.

Definition between (lo hi n : nat) : bool := (lo <=? n) && (n <=? hi).

(** [str.isspace] on one character, which is also [\s] of a [str]
    pattern: TAB..CR, FS..US, space, NEL and NBSP. *)
Definition is_space (c : ascii) : bool :=
  let n := code c in
  between 9 13 n || between 28 32 n || (n =? 133) || (n =? 160).

(** [\d] of a [str] pattern: the decimal digits. *)
Definition is_digit (c : ascii) : bool := between 48 57 (code c).

(** Lower-casing of one character: [A-Z] and the accented capitals
    0xC0..0xDE, the multiplication sign 0xD7 excepted. *)
Definition lower_char (c : ascii) : ascii :=
  let n := code c in
  if between 65 90 n || (between 192 222 n && negb (n =? 215))
  then ascii_of_nat (n + 32) else c.

Definition chars := list ascii.

Definition lower_chars (s : chars) : chars := map lower_char s.

(** [str.lower()] *)
Definition lower (s : string) : string :=
  string_of_list_ascii (lower_chars (list_ascii_of_string s)).

Fixpoint lstrip_chars (s : chars) : chars :=
  match s with
  | c :: t => if is_space c then lstrip_chars t else s
  | [] => []
  end.

Definition rstrip_chars (s : chars) : chars := rev (lstrip_chars (rev s)).

(** [str.strip()] with no argument *)
Definition strip (s : string) : string :=
  string_of_list_ascii (rstrip_chars (lstrip_chars (list_ascii_of_string s))).

Fixpoint starts_chars (p s : chars) : bool :=
  match p, s with
  | [], _ => true
  | a :: p', b :: s' => Ascii.eqb a b && starts_chars p' s'
  | _ :: _, [] => false
  end.

(** [s.endswith(suf)] *)
Definition endswith (s suf : string) : bool :=
  starts_chars (rev (list_ascii_of_string suf)) (rev (list_ascii_of_string s)).

(** Index of the first [c] in [s]. *)
Fixpoint find_char (c : ascii) (s : chars) : option nat :=
  match s with
  | [] => None
  | a :: t => if Ascii.eqb a c then Some 0 else option_map S (find_char c t)
  end.

(** [s.rfind(c)] for a one-character needle; [None] stands for -1. *)
Definition rfind (s : string) (c : ascii) : option nat :=
  let l := list_ascii_of_string s in
  match find_char c (rev l) with
  | Some k => Some (List.length l - 1 - k)
  | None => None
  end.

(** [PurePath.suffix] of a path whose final component is [name]
    (CPython up to 3.13):
<<
    i = name.rfind('.')
    if 0 < i < len(name) - 1: return name[i:]
    else: return ''
>> *)
Definition suffix (name : string) : string :=
  match rfind name "."%char with
  | Some i =>
      if (0 <? i) && (i + 1 <? String.length name)
      then string_of_list_ascii (skipn i (list_ascii_of_string name))
      else ""
  | None => ""
  end.

(** A string of exactly two decimal digits. *)
Definition two_digits (x : string) : bool :=
  match x with
  | String a (String b EmptyString) => is_digit a && is_digit b
  | _ => false
  end.

(** Truth value of a [str]: non-empty. *)
Definition truthy (s : string) : bool :=
  match s with EmptyString => false | _ => true end.

(** Truth value of an [Optional[str]]. *)
Definition truthy_opt (o : option string) : bool :=
  match o with Some s => truthy s | None => false end.

End PyStr.


(* ------------------------------------------------------------------ *)
(** ** Regular expressions

    The patterns of the scripts are built from literals, [.], [\s], [\d],
    concatenation, counted and open repetition (greedy or lazy) and
    capturing groups; alternation is included because optional and fallback
    patterns are written with it.  A pattern is kept in parsed form.

    Groups are numbered by their opening parenthesis, left to right, as
    [re] does; the numbering is implicit in the tree. *)

Module Re.

Import PyStr.

Inductive regex : Type :=
| Eps                                   (* the empty pattern *)
| Lit (c : ascii)                       (* a literal character *)
| AnyChar                               (* [.], without DOTALL *)
| Space                                 (* [\s] *)
| Digit                                 (* [\d] *)
| Cat (r1 r2 : regex)
| Alt (r1 r2 : regex)                   (* [r1|r2] *)
| Rep (lo : nat) (more : option nat) (greedy : bool) (r : regex)
    (* at least [lo] and at most [lo + more] times; [more = None]: open *)
| Grp (r : regex).                      (* [(r)] *)

Definition Star r := Rep 0 None true r.          (* [r*]    *)
Definition Plus r := Rep 1 None true r.          (* [r+]    *)
Definition StarLazy r := Rep 0 None false r.     (* [r*?]   *)
Definition PlusLazy r := Rep 1 None false r.     (* [r+?]   *)
Definition Opt r := Rep 0 (Some 1) true r.       (* [r?]    *)
Definition Times n r := Rep n (Some 0) true r.   (* [r{n}]  *)

(** Concatenation of a sequence of items. *)
Fixpoint seq (rs : list regex) : regex :=
  match rs with
  | [] => Eps
  | r :: rs' => Cat r (seq rs')
  end.

(** A run of literal characters. *)
Definition lits (s : string) : list regex := map Lit (list_ascii_of_string s).

(** [Pattern.groups]: the number of capturing groups. *)
Fixpoint ngroups (r : regex) : nat :=
  match r with
  | Eps | Lit _ | AnyChar | Space | Digit => 0
  | Cat r1 r2 | Alt r1 r2 => ngroups r1 + ngroups r2
  | Rep _ _ _ r1 => ngroups r1
  | Grp r1 => S (ngroups r1)
  end.

(** Capture marks: entry [g] holds the span of group [g + 1], if it took
    part in the match. *)
Definition marks := list (option (nat * nat)).

Fixpoint set_mark (g : nat) (sp : nat * nat) (m : marks) : marks :=
  match m, g with
  | [], _ => []
  | _ :: m', 0 => Some sp :: m'
  | x :: m', S g' => x :: set_mark g' sp m'
  end.

Definition get_mark (g : nat) (m : marks) : option (nat * nat) :=
  nth g m None.

Definition cont := nat -> marks -> option (nat * marks).

(** First alternative that succeeds; the second is not run otherwise. *)
Notation "a <|> b" :=
  (match a with Some x => Some x | None => b end)
  (at level 61, left associativity).

Section Matcher.

(** [re.IGNORECASE] *)
Variable ignorecase : bool.
(** the subject string *)
Variable s : chars.

Definition lit_eq (a c : ascii) : bool :=
  if ignorecase then Ascii.eqb (lower_char a) (lower_char c)
  else Ascii.eqb a c.

Definition not_newline (c : ascii) : bool := negb (code c =? 10).

(** One character at position [i] satisfying [p]. *)
Definition one (p : ascii -> bool) (i : nat) (m : marks) (k : cont)
  : option (nat * marks) :=
  match nth_error s i with
  | Some c => if p c then k (S i) m else None
  | None => None
  end.

Definition body_t := nat -> marks -> cont -> option (nat * marks).

(** The [lo] compulsory iterations of a repetition. *)
Fixpoint rep_min (body : body_t) (n : nat) (i : nat) (m : marks) (k : cont)
  : option (nat * marks) :=
  match n with
  | 0 => k i m
  | S n' => body i m (fun j m' => rep_min body n' j m' k)
  end.

Definition dec_budget (b : option nat) : option nat :=
  match b with Some n => Some (pred n) | None => None end.

Definition spent (b : option nat) : bool :=
  match b with Some 0 => true | _ => false end.

(** The further iterations.  A greedy repetition tries the body before
    the rest of the pattern, a lazy one the rest first.  An iteration
    that matched the empty string is not followed by another one (the
    engine's guard against looping without progress), so every
    recursive call is at a later position and [fuel] larger than the
    number of characters left is never used up. *)
Fixpoint rep_more (body : body_t) (greedy : bool) (fuel : nat)
         (budget : option nat) (i : nat) (m : marks) (k : cont)
  : option (nat * marks) :=
  match fuel with
  | 0 => k i m
  | S fuel' =>
      if spent budget then k i m
      else if greedy then
        body i m (fun j m' =>
          if i <? j then rep_more body greedy fuel' (dec_budget budget) j m' k
          else k j m')
        <|> k i m
      else
        k i m
        <|> body i m (fun j m' =>
          if i <? j then rep_more body greedy fuel' (dec_budget budget) j m' k
          else k j m')
  end.

(** [rmatch r g i m k]: match [r], whose first group has index [g],
    at position [i] with marks [m], then continue with [k]. *)
Fixpoint rmatch (r : regex) (g : nat) (i : nat) (m : marks) (k : cont)
         {struct r} : option (nat * marks) :=
  match r with
  | Eps => k i m
  | Lit a => one (lit_eq a) i m k
  | AnyChar => one not_newline i m k
  | Space => one is_space i m k
  | Digit => one is_digit i m k
  | Cat r1 r2 =>
      rmatch r1 g i m (fun j m' => rmatch r2 (g + ngroups r1) j m' k)
  | Alt r1 r2 =>
      rmatch r1 g i m k <|> rmatch r2 (g + ngroups r1) i m k
  | Rep lo more greedy r1 =>
      rep_min (rmatch r1 g) lo i m (fun j m' =>
        rep_more (rmatch r1 g) greedy (S (List.length s - j)) more j m' k)
  | Grp r1 =>
      rmatch r1 (S g) i m (fun j m' => k j (set_mark g (i, j) m'))
  end.

Definition accept : cont := fun j m => Some (j, m).

(** An anchored attempt at position [i], all groups unset. *)
Definition match_at (p : regex) (i : nat) : option (nat * marks) :=
  rmatch p 0 i (repeat None (ngroups p)) accept.

(** Attempts at [i], [i+1], ..., [i+n]. *)
Fixpoint search_from (p : regex) (n i : nat) : option (nat * (nat * marks)) :=
  match match_at p i with
  | Some r => Some (i, r)
  | None =>
      match n with
      | 0 => None
      | S n' => search_from p n' (S i)
      end
  end.

(** *** What a match is, without the search order

    [matches r g i m j m']: some way of reading [r] consumes the
    characters from [i] up to [j] and turns the marks [m] into [m'].
    The matcher above explores these readings in priority order. *)

Definition step_rel := nat -> marks -> nat -> marks -> Prop.

Fixpoint chain (R : step_rel) (n : nat) (i : nat) (m : marks)
         (j : nat) (m' : marks) : Prop :=
  match n with
  | 0 => j = i /\ m' = m
  | S n' => exists k m1, R i m k m1 /\ chain R n' k m1 j m'
  end.

Definition within (budget : option nat) (n : nat) : Prop :=
  match budget with Some b => n <= b | None => True end.

Definition one_rel (p : ascii -> bool) : step_rel :=
  fun i m j m' =>
    exists c, nth_error s i = Some c /\ p c = true /\ j = S i /\ m' = m.

Fixpoint matches (r : regex) (g : nat) : step_rel :=
  match r with
  | Eps => fun i m j m' => j = i /\ m' = m
  | Lit a => one_rel (lit_eq a)
  | AnyChar => one_rel not_newline
  | Space => one_rel is_space
  | Digit => one_rel is_digit
  | Cat r1 r2 => fun i m j m' =>
      exists k m1, matches r1 g i m k m1 /\ matches r2 (g + ngroups r1) k m1 j m'
  | Alt r1 r2 => fun i m j m' =>
      matches r1 g i m j m' \/ matches r2 (g + ngroups r1) i m j m'
  | Rep lo more _ r1 => fun i m j m' =>
      exists n, within more n /\ chain (matches r1 g) (lo + n) i m j m'
  | Grp r1 => fun i m j m' =>
      exists m1, matches r1 (S g) i m j m1 /\ m' = set_mark g (i, j) m1
  end.

(** A body in continuation style is sound for a relation when each of
    its successes passes through a step of the relation. *)
Definition sound (body : body_t) (R : step_rel) : Prop :=
  forall i m k res,
    body i m k = Some res ->
    exists j m', R i m j m' /\ k j m' = Some res.

(** What a step leaves alone: the number of marks and the marks of the
    groups before [g]; and it never moves backwards or past the end. *)
Definition framed (g : nat) (R : step_rel) : Prop :=
  forall i m j m',
    R i m j m' ->
    i <= List.length s ->
    List.length m' = List.length m
    /\ (forall h, h < g -> get_mark h m' = get_mark h m)
    /\ i <= j <= List.length s.

(** A body is local when its result depends on the continuation only
    at positions from the current one up to the end of the subject. *)
Definition local (b : body_t) : Prop :=
  forall i m k k',
    i <= List.length s ->
    (forall j m', i <= j <= List.length s -> k j m' = k' j m') ->
    b i m k = b i m k'.

End Matcher.

(** Two bodies agree when they give equal results on continuations that
    give equal results. *)
Definition agree (b b' : body_t) : Prop :=
  forall i m k k',
    (forall j m', k j m' = k' j m') -> b i m k = b' i m k'.

(** A match object: subject, span of the whole match, marks. *)
Record match_obj : Type := MkMatch {
  m_string : chars;
  m_start : nat;
  m_end : nat;
  m_marks : marks
}.

(** [re.search(pattern, string, flags)]: the leftmost position at which
    an anchored attempt succeeds, with the match found there. *)
Definition search (ignorecase : bool) (p : regex) (subject : string)
  : option match_obj :=
  let s := list_ascii_of_string subject in
  match search_from ignorecase s p (List.length s) 0 with
  | Some (i, (j, m)) => Some (MkMatch s i j m)
  | None => None
  end.

Definition slice (s : chars) (i j : nat) : string :=
  string_of_list_ascii (firstn (j - i) (skipn i s)).

(** [match.groups()] *)
Definition groups (mo : match_obj) : list (option string) :=
  map (option_map (fun sp => slice (m_string mo) (fst sp) (snd sp)))
      (m_marks mo).

(** The spans of a match: start and end of the whole match and of every
    group, as [match.span] reports them. *)
Definition spans (mo : match_obj) : nat * nat * marks :=
  (m_start mo, m_end mo, m_marks mo).

End Re.

(* ------------------------------------------------------------------ *)
(** ** Exceptions, results and effects *)

Module Py.

Inductive exn : Type :=
| ValueError (msg : string)
| IndexError (msg : string)
| AttributeError (msg : string)
| OSError (msg : string).

Definition is_ValueError (e : exn) : bool :=
  match e with ValueError _ => true | _ => false end.

(** What a call gives back: a value, or a raised exception. *)
Inductive result (A : Type) : Type :=
| Ok (a : A)
| Raise (e : exn).

Arguments Ok {A} a.
Arguments Raise {A} e.

Definition rbind {A B : Type} (r : result A) (f : A -> result B) : result B :=
  match r with
  | Ok a => f a
  | Raise e => Raise e
  end.

(** [match.group(k)]: group 0 is the whole match; a group that took no
    part in the match is [None]; an index past the last group raises. *)
Definition group (mo : Re.match_obj) (k : nat) : result (option string) :=
  match k with
  | 0 => Ok (Some (Re.slice (Re.m_string mo) (Re.m_start mo) (Re.m_end mo)))
  | S g =>
      if g <? List.length (Re.m_marks mo)
      then Ok (nth g (Re.groups mo) None)
      else Raise (IndexError "no such group")
  end.

(** [x.strip()] where [x] may be [None]. *)
Definition strip_method (x : option string) : result (option string) :=
  match x with
  | Some t => Ok (Some (PyStr.strip t))
  | None => Raise (AttributeError "'NoneType' object has no attribute 'strip'")
  end.

(** Paths by their components, as [PurePath.parts]; an absolute path
    starts with the component ["/"]. *)
Definition path := list string.

Definition is_absolute (p : path) : bool :=
  match p with
  | root :: _ => String.eqb root "/"
  | [] => false
  end.

(** [p / name] for a relative one-component [name]. *)
Definition joinpath (p : path) (name : string) : path := p ++ [name].

(** [str(p)] of a relative path. *)
Fixpoint render (p : path) : string :=
  match p with
  | [] => ""
  | [x] => x
  | x :: rest => x +++ "/" +++ render rest
  end.

(** A directory entry as the scan sees it. *)
Record dirent : Type := MkEntry {
  d_name : string;      (* [file.name] *)
  d_is_file : bool      (* [file.is_file()] *)
}.

(** The services of the operating system the scripts call.  Every one
    may fail; a failing call may still have changed the world. *)
Class OS (World : Type) : Type := {
  path_exists : path -> World -> bool;                    (* [Path.exists] *)
  iterdir : path -> World -> result (list dirent);        (* [Path.iterdir] *)
  mkdir_p : path -> World -> World * result unit;
    (* [Path.mkdir(parents=True, exist_ok=True)] *)
  copy2 : path -> path -> World -> World * result unit    (* [shutil.copy2] *)
}.

(** State and exceptions: a computation runs on a state and yields the
    new state with a value or a raised exception. *)
Section Monad.

Variable St : Type.

Definition M (A : Type) : Type := St -> St * result A.

Definition ret {A : Type} (a : A) : M A := fun s => (s, Ok a).

Definition raise {A : Type} (e : exn) : M A := fun s => (s, Raise e).

Definition bind {A B : Type} (m : M A) (f : A -> M B) : M B :=
  fun s =>
    match m s with
    | (s', Ok a) => f a s'
    | (s', Raise e) => (s', Raise e)
    end.

(** [try: m  except Exception as e: h e] *)
Definition try_except {A : Type} (m : M A) (h : exn -> M A) : M A :=
  fun s =>
    match m s with
    | (s', Ok a) => (s', Ok a)
    | (s', Raise e) => h e s'
    end.

(** [try: m  except ValueError as e: h e] *)
Definition try_except_ValueError {A : Type} (m : M A) (h : exn -> M A) : M A :=
  fun s =>
    match m s with
    | (s', Ok a) => (s', Ok a)
    | (s', Raise e) => if is_ValueError e then h e s' else (s', Raise e)
    end.

Definition lift {A : Type} (r : result A) : M A := fun s => (s, r).

End Monad.

Arguments ret {St A} a.
Arguments raise {St A} e.
Arguments bind {St A B} m f.
Arguments try_except {St A} m h.
Arguments try_except_ValueError {St A} m h.
Arguments lift {St A} r.

End Py.

Notation "x <- m ;; k" := (Py.bind m (fun x => k))
  (at level 100, m at next level, right associativity).
Notation "m ;;; k" := (Py.bind m (fun _ => k))
  (at level 100, right associativity).

(* ------------------------------------------------------------------ *)
(** ** Standard output

    Each constructor stands for one [print] call (or one block of
    consecutive [print] calls) of the scripts, with the values it
    interpolates. *)

Inductive event : Type :=
| DryRunBanner                                   (* "DRY RUN MODE - ..." *)
| Header (show : option string) (source_dir dest_base : Py.path)
| ErrorNoSource (source_dir : Py.path)           (* "Error: Source directory ..." *)
| NoVideoFiles                                   (* "No video files found ..." *)
| Found (n : nat)                                (* "Found n video files ..." *)
| Skipping (name : string)                       (* "Skipping (couldn't parse): name" *)
| Copying (dry : bool) (name : string)           (* "[DRY RUN] Copying: name" *)
| To (rel : string)                              (* "     To: rel" *)
| Done (dry : bool)                              (* "Would copy" / "Success" *)
| CopyError (e : Py.exn)                         (* "     Error: e" *)
| Summary (dry : bool) (copied skipped : nat) (dest_base : Py.path)
| MainError (e : Py.exn).                        (* "Error: e" in [main] *)

(** The state the scripts run on: the world outside and what has been
    printed so far, oldest first. *)
Record state (World : Type) : Type := MkState {
  world : World;
  stdout : list event
}.

Arguments MkState {World} world stdout.
Arguments world {World} s.
Arguments stdout {World} s.

Section Effects.

Context {World : Type} {os : Py.OS World}.

Definition print (e : event) : Py.M (state World) unit :=
  fun s => (MkState (world s) (stdout s ++ [e]), Py.Ok tt).

Definition sys_exists (p : Py.path) : Py.M (state World) bool :=
  fun s => (s, Py.Ok (Py.path_exists p (world s))).

Definition sys_iterdir (p : Py.path) : Py.M (state World) (list Py.dirent) :=
  fun s => (s, Py.iterdir p (world s)).

Definition sys_mkdir (p : Py.path) : Py.M (state World) unit :=
  fun s => let (w, r) := Py.mkdir_p p (world s) in (MkState w (stdout s), r).

Definition sys_copy2 (src dst : Py.path) : Py.M (state World) unit :=
  fun s => let (w, r) := Py.copy2 src dst (world s) in (MkState w (stdout s), r).

(** [if c: m] *)
Definition when (c : bool) (m : Py.M (state World) unit) : Py.M (state World) unit :=
  if c then m else Py.ret tt.

End Effects.

(** [sorted] on a list of names: stable insertion by code-point order,
    which is how paths of one directory compare. *)
Fixpoint insert_sorted (x : string) (l : list string) : list string :=
  match l with
  | [] => [x]
  | y :: l' => if String.ltb x y then x :: l else y :: insert_sorted x l'
  end.

Definition sorted (l : list string) : list string :=
  fold_right insert_sorted [] (rev l).


(** [x in xs] for strings *)
Definition str_in (x : string) (xs : list string) : bool :=
  existsb (String.eqb x) xs.

(* ------------------------------------------------------------------ *)
(** ** organize_shows.py *)

Module OrganizeShows.

Import PyStr Re Py.

Record show_config : Type := MkShow {
  name : string;
  patterns : list regex;
  output_name : string
}.

(** [Fringe\s+S(\d{2})E(\d{2})\s+(.+?)\s+\(.*?\)] *)
Definition fringe_pattern : regex :=
  seq (lits "Fringe" ++
       [Plus Space; Lit "S"; Grp (Times 2 Digit); Lit "E"; Grp (Times 2 Digit);
        Plus Space; Grp (PlusLazy AnyChar); Plus Space;
        Lit "("; StarLazy AnyChar; Lit ")"]).

(** [BSG\s+S(\d{2})E(\d{2})\s+(.+?)\s+\(.*?\)] *)
Definition battlestar_pattern : regex :=
  seq (lits "BSG" ++
       [Plus Space; Lit "S"; Grp (Times 2 Digit); Lit "E"; Grp (Times 2 Digit);
        Plus Space; Grp (PlusLazy AnyChar); Plus Space;
        Lit "("; StarLazy AnyChar; Lit ")"]).

(** The class attribute [SHOWS], in insertion order. *)
Definition SHOWS : list (string * show_config) :=
  [ ("fringe", MkShow "Fringe" [fringe_pattern] "Fringe");
    ("battlestar",
     MkShow "Battlestar Galactica" [battlestar_pattern] "Battlestar Galactica") ].

Fixpoint lookup (key : string) (d : list (string * show_config))
  : option show_config :=
  match d with
  | [] => None
  | (k, v) :: d' => if String.eqb key k then Some v else lookup key d'
  end.

(** [repr] of the list of keys, e.g. ['fringe', 'battlestar'] *)
Fixpoint repr_items (ks : list string) : string :=
  match ks with
  | [] => ""
  | [k] => "'" +++ k +++ "'"
  | k :: ks' => "'" +++ k +++ "', " +++ repr_items ks'
  end.

Definition repr_keys (ks : list string) : string := "[" +++ repr_items ks +++ "]".

Record ShowOrganizer : Type := MkOrganizer {
  show_cfg : show_config;
  show_key : string
}.

(** [ShowOrganizer.__init__] *)
Definition init (key : string) : result ShowOrganizer :=
  match lookup key SHOWS with
  | None =>
      Raise (ValueError ("Unknown show: " +++ key +++ ". Available: "
                         +++ repr_keys (map fst SHOWS)))
  | Some cfg => Ok (MkOrganizer cfg key)
  end.

Definition info : Type := option string * option string * option string.

(** The body of the loop of [parse_episode_info] once [re.search] has
    returned the match object [mo]. *)
Definition extract (mo : match_obj) : result info :=
  rbind (group mo 1) (fun season =>
  rbind (group mo 2) (fun episode =>
  rbind (if 3 <=? List.length (groups mo)
         then rbind (group mo 3) strip_method
         else Ok None) (fun title =>
  Ok (season, episode, title)))).

(** The loop of [parse_episode_info] over the patterns still to try. *)
Fixpoint parse_with (pats : list regex) (filename : string) : result info :=
  match pats with
  | [] => Ok (None, None, None)
  | pattern :: rest =>
      match search true pattern filename with
      | Some mo => extract mo
      | None => parse_with rest filename
      end
  end.

(** [ShowOrganizer.parse_episode_info] *)
Definition parse_episode_info (self : ShowOrganizer) (filename : string)
  : result info :=
  parse_with (patterns (show_cfg self)) filename.

(** [ShowOrganizer.create_jellyfin_filename] *)
Definition create_jellyfin_filename (self : ShowOrganizer)
           (season episode : string) (title : option string)
           (extension : string) : string :=
  let show_name := name (show_cfg self) in
  if truthy_opt title
  then show_name +++ " - S" +++ season +++ "E" +++ episode +++ " - "
       +++ match title with Some t => t | None => "" end +++ extension
  else show_name +++ " - S" +++ season +++ "E" +++ episode +++ extension.

Definition video_extensions : list string :=
  [".m4v"; ".mp4"; ".mkv"; ".avi"; ".ts"].

(** The test the scan applies to one directory entry. *)
Definition selected (e : dirent) : bool :=
  if d_is_file e then
    if endswith (d_name e) ".part" then false
    else str_in (lower (suffix (d_name e))) video_extensions
  else false.

(** [str] of an [Optional[str]], as an f-string interpolates it. *)
Definition str_of (o : option string) : string :=
  match o with Some x => x | None => "None" end.

(** The destination of a file below [dest_base], as the loop of
    [organize] builds it ([season_dir / new_filename]) and prints it
    ("Season {season}/{new_filename}"). *)
Definition destination_rel (self : ShowOrganizer) (season episode : string)
           (title : option string) (extension : string) : string :=
  "Season " +++ season +++ "/"
  +++ create_jellyfin_filename self season episode title extension.

Section Driver.

Context {World : Type} {os : OS World}.

Variable self : ShowOrganizer.
Variable source_dir dest_base : path.
Variable dry_run : bool.

(** The loop [for file in sorted(files)] with its two counters. *)
Fixpoint process (files : list string) (copied_count skipped_count : nat)
  : M (state World) (nat * nat) :=
  match files with
  | [] => ret (copied_count, skipped_count)
  | file_name :: rest =>
      i <- lift (parse_episode_info self file_name) ;;
      let '(season, episode, title) := i in
      if negb (truthy_opt season) || negb (truthy_opt episode) then
        print (Skipping file_name) ;;;
        process rest copied_count (S skipped_count)
      else
        let season := str_of season in
        let episode := str_of episode in
        let extension := suffix file_name in
        let season_dir := joinpath dest_base ("Season " +++ season) in
        when (negb dry_run) (sys_mkdir season_dir) ;;;
        let new_filename :=
          create_jellyfin_filename self season episode title extension in
        let dest_file := joinpath season_dir new_filename in
        c <- try_except
               (print (Copying dry_run file_name) ;;;
                print (To (destination_rel self season episode title extension)) ;;;
                when (negb dry_run)
                     (sys_copy2 (joinpath source_dir file_name) dest_file) ;;;
                print (Done dry_run) ;;;
                ret (S copied_count, skipped_count))
               (fun e =>
                print (CopyError e) ;;;
                ret (copied_count, S skipped_count)) ;;
        process rest (fst c) (snd c)
  end.

End Driver.

Section Program.

Context {World : Type} {os : OS World}.

(** [Path(__file__).parent] *)
Variable script_dir : path.

(** [ShowOrganizer.organize] *)
Definition organize (self : ShowOrganizer) (source_dir : path)
           (dest_parent : option path) (dry_run : bool)
  : M (state World) bool :=
  let source_dir :=
    if is_absolute source_dir then source_dir else script_dir ++ source_dir in
  let dest_parent :=
    match dest_parent with
    | None => joinpath (joinpath script_dir "Media") "Shows"
    | Some d => d
    end in
  let dest_base := joinpath dest_parent (output_name (show_cfg self)) in
  when dry_run (print DryRunBanner) ;;;
  print (Header (Some (name (show_cfg self))) source_dir dest_base) ;;;
  ex <- sys_exists source_dir ;;
  if negb ex then
    print (ErrorNoSource source_dir) ;;; ret false
  else
    entries <- sys_iterdir source_dir ;;
    let files := map d_name (filter selected entries) in
    match files with
    | [] => print NoVideoFiles ;;; ret false
    | _ :: _ =>
        print (Found (List.length files)) ;;;
        c <- process self source_dir dest_base dry_run (sorted files) 0 0 ;;
        print (Summary dry_run (fst c) (snd c) dest_base) ;;;
        ret true
    end.

(** The parsed command line. *)
Record args : Type := MkArgs {
  a_show : string;
  a_source : path;
  a_dest : option path;
  a_dry_run : bool
}.

(** [main] from line 211 on, once [parser.parse_args()] has accepted the
    command line and returned the arguments [a].  What [parse_args] does
    with a command line it rejects, or with [--help], is not modelled. *)
Definition main (a : args) : M (state World) nat :=
  early <- try_except_ValueError
             (organizer <- lift (init (lower (a_show a))) ;;
              organize organizer (a_source a) (a_dest a) (a_dry_run a) ;;;
              ret None)
             (fun e => print (MainError e) ;;; ret (Some 1)) ;;
  match early with
  | Some status => ret status
  | None => ret 0
  end.

(** [exit(main())] for an accepted command line with the arguments [a]:
    the exit status of the process once [parse_args] has returned.  An
    exception that leaves [main] ends the interpreter with status 1.
    The exits of [parse_args] itself (status 2 for a command line it
    rejects, status 0 after [--help]) happen before and have no
    counterpart here. *)
Definition exit_status (a : args) (s : state World) : state World * nat :=
  match main a s with
  | (s', Ok n) => (s', n)
  | (s', Raise _) => (s', 1)
  end.

End Program.

End OrganizeShows.

(* ------------------------------------------------------------------ *)
(** ** organize_fringe.py *)

Module OrganizeFringe.

Import PyStr Re Py.

(** [Fringe S(\d{2})E(\d{2})] *)
Definition episode_pattern : regex :=
  seq (lits "Fringe S" ++ [Grp (Times 2 Digit); Lit "E"; Grp (Times 2 Digit)]).

(** [Fringe S\d{2}E\d{2}\s+(.+?)\s+\(.*?\)] *)
Definition title_pattern : regex :=
  seq (lits "Fringe S" ++
       [Times 2 Digit; Lit "E"; Times 2 Digit;
        Plus Space; Grp (PlusLazy AnyChar); Plus Space;
        Lit "("; StarLazy AnyChar; Lit ")"]).

(** [parse_episode_info] *)
Definition parse_episode_info (filename : string)
  : result (option string * option string) :=
  match search false episode_pattern filename with
  | Some mo =>
      rbind (group mo 1) (fun season =>
      rbind (group mo 2) (fun episode =>
      Ok (season, episode)))
  | None => Ok (None, None)
  end.

(** [get_episode_title] *)
Definition get_episode_title (filename : string) : result (option string) :=
  match search false title_pattern filename with
  | Some mo => rbind (group mo 1) strip_method
  | None => Ok None
  end.

(** [create_jellyfin_filename] *)
Definition create_jellyfin_filename (season episode : string)
           (title : option string) (extension : string) : string :=
  if truthy_opt title
  then "Fringe - S" +++ season +++ "E" +++ episode +++ " - "
       +++ match title with Some t => t | None => "" end +++ extension
  else "Fringe - S" +++ season +++ "E" +++ episode +++ extension.

Definition video_extensions : list string := [".m4v"; ".mp4"; ".mkv"; ".avi"].

(** The test the scan applies to one directory entry. *)
Definition selected (e : dirent) : bool :=
  if d_is_file e then
    if endswith (d_name e) ".part" then false
    else str_in (suffix (d_name e)) video_extensions
  else false.

(** [dest_base.relative_to(script_dir)] *)
Definition dest_rel : path := ["Media"; "Shows"; "Fringe"].

Section Driver.

Context {World : Type} {os : OS World}.

Variable script_dir : path.
Variable source_dir : path.
Variable dry_run : bool.

Definition dest_base : path := script_dir ++ dest_rel.

(** The loop [for file in sorted(files)] with its two counters. *)
Fixpoint process (files : list string) (copied_count skipped_count : nat)
  : M (state World) (nat * nat) :=
  match files with
  | [] => ret (copied_count, skipped_count)
  | file_name :: rest =>
      i <- lift (parse_episode_info file_name) ;;
      let '(season, episode) := i in
      if negb (truthy_opt season) || negb (truthy_opt episode) then
        print (Skipping file_name) ;;;
        process rest copied_count (S skipped_count)
      else
        let season := OrganizeShows.str_of season in
        let episode := OrganizeShows.str_of episode in
        title <- lift (get_episode_title file_name) ;;
        let extension := suffix file_name in
        let season_name := "Season " +++ season in
        let season_dir := joinpath dest_base season_name in
        when (negb dry_run) (sys_mkdir season_dir) ;;;
        let new_filename :=
          create_jellyfin_filename season episode title extension in
        let dest_file := joinpath season_dir new_filename in
        c <- try_except
               (print (Copying dry_run file_name) ;;;
                print (To (render (dest_rel ++ [season_name; new_filename]))) ;;;
                when (negb dry_run)
                     (sys_copy2 (joinpath source_dir file_name) dest_file) ;;;
                print (Done dry_run) ;;;
                ret (S copied_count, skipped_count))
               (fun e =>
                print (CopyError e) ;;;
                ret (copied_count, S skipped_count)) ;;
        process rest (fst c) (snd c)
  end.

End Driver.

Section Program.

Context {World : Type} {os : OS World}.

(** [Path(__file__).parent] *)
Variable script_dir : path.

Record args : Type := MkArgs {
  a_source : path;
  a_dry_run : bool
}.

(** [main]; it returns [None] on every path. *)
Definition main (a : args) : M (state World) unit :=
  let dry_run := a_dry_run a in
  let source_dir :=
    if is_absolute (a_source a) then a_source a else script_dir ++ a_source a in
  when dry_run (print DryRunBanner) ;;;
  print (Header None source_dir (dest_base script_dir)) ;;;
  ex <- sys_exists source_dir ;;
  if negb ex then
    print (ErrorNoSource source_dir)
  else
    entries <- sys_iterdir source_dir ;;
    let files := map d_name (filter selected entries) in
    match files with
    | [] => print NoVideoFiles
    | _ :: _ =>
        print (Found (List.length files)) ;;;
        c <- process script_dir source_dir dry_run (sorted files) 0 0 ;;
        print (Summary dry_run (fst c) (snd c) dest_rel)
    end.

End Program.

End OrganizeFringe.

(* ------------------------------------------------------------------ *)
(** ** A world for concrete runs

    A small operating system with injected faults: the directory listing
    is fixed, creating a directory fails for the season directories named
    in [bad_mkdir], copying fails for the source names in [bad_copy], and
    every call is logged, failed or not. *)

Module Toy.

Import Py.

Inductive call : Type :=
| Mkdir (p : path)
| Copy (src dst : path).

Record toy : Type := MkToy {
  has_source : bool;
  listing : list dirent;
  bad_mkdir : list string;
  bad_copy : list string;
  calls : list call
}.

Definition logged (w : toy) (c : call) : toy :=
  MkToy (has_source w) (listing w) (bad_mkdir w) (bad_copy w) (calls w ++ [c]).

Definition base_name (p : path) : string := last p "".

#[global] Instance toy_os : OS toy := {
  path_exists := fun _ w => has_source w;
  iterdir := fun _ w => Ok (listing w);
  mkdir_p := fun p w =>
    (logged w (Mkdir p),
     if str_in (base_name p) (bad_mkdir w)
     then Raise (OSError "Not a directory") else Ok tt);
  copy2 := fun src dst w =>
    (logged w (Copy src dst),
     if str_in (base_name src) (bad_copy w)
     then Raise (OSError "Permission denied") else Ok tt)
}.

Definition file (n : string) : dirent := MkEntry n true.

(** A source directory with the given regular files and no faults. *)
Definition healthy (names : list string) : toy :=
  MkToy true (map file names) [] [] [].

(** Where the scripts live in the concrete runs. *)
Definition home : path := ["/"; "home"; "jellyfin-local"].

(** A download folder: two episodes, a video of something else, a text
    file, a partial download and a sub-directory. *)
Definition season4 : list dirent :=
  [ file "Fringe S04E02 One Night in October (1080p).mp4";
    file "notes.txt";
    file "Fringe S04E01 Neither Here Nor There (1080p).mp4";
    file "random_video.mp4";
    file "Fringe S04E03 Alone in the World (1080p).mp4.part";
    MkEntry "extras.mkv" false ].

Definition season4_world : toy := MkToy true season4 [] [] [].

(** The same folder when the first episode cannot be copied. *)
Definition season4_unreadable : toy :=
  MkToy true season4 []
        ["Fringe S04E01 Neither Here Nor There (1080p).mp4"] [].

(** The same folder when [Season 04] cannot be created. *)
Definition season4_blocked : toy := MkToy true season4 ["Season 04"] [] [].

(** No source folder at all. *)
Definition nowhere : toy := MkToy false [] [] [] [].

End Toy.

(* ------------------------------------------------------------------ *)
(** * Sample profiles *)

Module Samples.

Import Re Py OrganizeShows.

(** The organizer [ShowOrganizer('fringe')]. *)
Definition fringe : ShowOrganizer :=
  MkOrganizer (MkShow "Fringe" [fringe_pattern] "Fringe") "fringe".

(** The organizer [ShowOrganizer('battlestar')]. *)
Definition battlestar : ShowOrganizer :=
  MkOrganizer
    (MkShow "Battlestar Galactica" [battlestar_pattern] "Battlestar Galactica")
    "battlestar".

(** [S(\d{2})E(\d{2})]: two groups, no title. *)
Definition loose_pattern : regex :=
  seq [Lit "S"; Grp (Times 2 Digit); Lit "E"; Grp (Times 2 Digit)].

(** [(\d)(\d)]: matches wherever two digits follow each other. *)
Definition digits_pattern : regex := seq [Grp Digit; Grp Digit].

(** A profile with a strict pattern, a looser fallback and a last
    resort, in this order. *)
Definition fallback : ShowOrganizer :=
  MkOrganizer
    (MkShow "Show" [fringe_pattern; loose_pattern; digits_pattern] "Show")
    "show".

(** [S(\d{2})E(\d{2})(?: (.+))?]: the third group is optional. *)
Definition optional_title_pattern : regex :=
  seq [Lit "S"; Grp (Times 2 Digit); Lit "E"; Grp (Times 2 Digit);
       Opt (seq [Lit " "; Grp (Plus AnyChar)])].

Definition optional_title : ShowOrganizer :=
  MkOrganizer (MkShow "Show" [optional_title_pattern] "Show") "show".

(** The same pattern with the two-group pattern as a fallback after it. *)
Definition optional_first : ShowOrganizer :=
  MkOrganizer
    (MkShow "Show" [optional_title_pattern; loose_pattern] "Show") "show".

End Samples.

(* ------------------------------------------------------------------ *)
(** * Reading a transcript *)

Module Report.

Import Py.

(** A state with more lines printed. *)
Definition add {World : Type} (st : state World) (l : list event) : state World :=
  MkState (world st) (stdout st ++ l).

(** A run starts with nothing printed. *)
Definition boot {World : Type} (w : World) : state World := MkState w [].

(** An event without its mode tag. *)
Definition neutral (e : event) : event :=
  match e with
  | Copying _ n => Copying false n
  | Done _ => Done false
  | Summary _ c k d => Summary false c k d
  | _ => e
  end.

(** The lines that classify a file: the notice for an unparseable name,
    and the pair of lines naming a file and its destination. *)
Definition is_decision (e : event) : bool :=
  match e with
  | Skipping _ | Copying _ _ | To _ => true
  | _ => false
  end.

Definition decisions (l : list event) : list event :=
  map neutral (filter is_decision l).

Definition is_copy_error (e : event) : bool :=
  match e with CopyError _ => true | _ => false end.

(** How many copies failed. *)
Definition copy_errors (l : list event) : nat :=
  List.length (filter is_copy_error l).

(** The counts of the last summary printed, if any. *)
Fixpoint counts (l : list event) : option (nat * nat) :=
  match l with
  | [] => None
  | e :: l' =>
      match counts l' with
      | Some r => Some r
      | None =>
          match e with
          | Summary _ c k _ => Some (c, k)
          | _ => None
          end
      end
  end.

(** The title part of a canonical name, after the specification's
    "{ - title if present}".  A title is present when it is a non-empty
    string: this is what the test [if title:] of the scripts asks. *)
Definition title_segment (title : option string) : string :=
  match title with
  | Some t => if PyStr.truthy t then " - " +++ t else ""
  | None => ""
  end.

(** Whether a file name occurs in the transcript. *)
Definition mentions (name : string) (l : list event) : bool :=
  existsb (fun e =>
             match e with
             | Skipping n | Copying _ n => String.eqb n name
             | _ => false
             end) l.

Section Paths.

(** [Path(__file__).parent] *)
Variable script_dir : path.

(** The source directory [organize] reads, once made absolute. *)
Definition source_of (source_dir : path) : path :=
  if is_absolute source_dir then source_dir else script_dir ++ source_dir.

(** The directory of the show below the destination parent. *)
Definition dest_base_of (self : OrganizeShows.ShowOrganizer)
           (dest_parent : option path) : path :=
  joinpath
    match dest_parent with
    | None => joinpath (joinpath script_dir "Media") "Shows"
    | Some d => d
    end
    (OrganizeShows.output_name (OrganizeShows.show_cfg self)).

(** What [organize] prints before it looks at the source directory. *)
Definition preamble (self : OrganizeShows.ShowOrganizer) (source_dir : path)
           (dest_parent : option path) (dry_run : bool) : list event :=
  (if dry_run then [DryRunBanner] else [])
  ++ [Header (Some (OrganizeShows.name (OrganizeShows.show_cfg self)))
             (source_of source_dir) (dest_base_of self dest_parent)].

(** The same for [main] of organize_fringe.py. *)
Definition fringe_source_of (a : OrganizeFringe.args) : path :=
  if is_absolute (OrganizeFringe.a_source a) then OrganizeFringe.a_source a
  else script_dir ++ OrganizeFringe.a_source a.

Definition fringe_preamble (a : OrganizeFringe.args) : list event :=
  (if OrganizeFringe.a_dry_run a then [DryRunBanner] else [])
  ++ [Header None (fringe_source_of a) (OrganizeFringe.dest_base script_dir)].

End Paths.

End Report.

(* ------------------------------------------------------------------ *)
(** * Concrete runs *)

Module Runs.

Import Py Report.

(** The download folder organized for real, and as a dry run. *)
Definition season4_real : state Toy.toy * result bool :=
  Eval vm_compute in
    OrganizeShows.organize Toy.home Samples.fringe ["FringeS04"] None false
                           (boot Toy.season4_world).

Definition season4_dry : state Toy.toy * result bool :=
  Eval vm_compute in
    OrganizeShows.organize Toy.home Samples.fringe ["FringeS04"] None true
                           (boot Toy.season4_world).

(** The same when the first episode cannot be copied. *)
Definition unreadable_real : state Toy.toy * result bool :=
  OrganizeShows.organize Toy.home Samples.fringe ["FringeS04"] None false
                         (boot Toy.season4_unreadable).

Definition unreadable_dry : state Toy.toy * result bool :=
  OrganizeShows.organize Toy.home Samples.fringe ["FringeS04"] None true
                         (boot Toy.season4_unreadable).

(** The same when the season directory cannot be created. *)
Definition blocked_real : state Toy.toy * result bool :=
  OrganizeShows.organize Toy.home Samples.fringe ["FringeS04"] None false
                         (boot Toy.season4_blocked).

(** The loop on the episode that cannot be copied and the file after it. *)
Definition unreadable_loop : state Toy.toy * result (nat * nat) :=
  OrganizeShows.process
    Samples.fringe (Toy.home ++ ["FringeS04"])
    (Toy.home ++ ["Media"; "Shows"; "Fringe"]) false
    ["Fringe S04E01 Neither Here Nor There (1080p).mp4"; "random_video.mp4"]
    0 0 (boot Toy.season4_unreadable).

End Runs.

(* ------------------------------------------------------------------ *)
(** * Notions used to state further properties *)

Module Notions.

Import PyStr Py.

(** A string that begins or ends with a white-space character. *)
Definition edge_space (x : string) : bool :=
  match list_ascii_of_string x with
  | [] => false
  | c :: t => is_space c || is_space (last t c)
  end.

(** The order [sorted] puts names in. *)
Definition name_le (x y : string) : Prop := String.leb x y = true.

(** A file name from which the profile reads a season and an episode. *)
Definition parses (self : OrganizeShows.ShowOrganizer) (file_name : string) : bool :=
  match OrganizeShows.parse_episode_info self file_name with
  | Ok (season, episode, _) => truthy_opt season && truthy_opt episode
  | Raise _ => false
  end.


(** The file names a transcript reports, in the order of the report: one
    for each notice of an unparseable name and for each "Copying" line. *)
Fixpoint reported (l : list event) : list string :=
  match l with
  | [] => []
  | Skipping n :: l' => n :: reported l'
  | Copying _ n :: l' => n :: reported l'
  | _ :: l' => reported l'
  end.


(** A profile whose only pattern, [E(\d{2})], has a single group. *)
Definition one_group : OrganizeShows.ShowOrganizer :=
  OrganizeShows.MkOrganizer
    (OrganizeShows.MkShow "Show" [Re.seq [Re.Lit "E"; Re.Grp (Re.Times 2 Re.Digit)]]
                          "Show")
    "show".

End Notions.

(* ------------------------------------------------------------------ *)
(** * Examples of the string methods *)

Example suffix_mp4 : PyStr.suffix "Fringe S04E01 Pilot (1080p).mp4" = ".mp4".
Proof. reflexivity. Qed.

Example suffix_hidden : PyStr.suffix ".mp4" = "".
Proof. reflexivity. Qed.

Example suffix_trailing_dot : PyStr.suffix "movie." = "".
Proof. reflexivity. Qed.

Example suffix_two : PyStr.suffix "a.tar.GZ" = ".GZ".
Proof. reflexivity. Qed.

Example strip_both : PyStr.strip "  Episode Title  " = "Episode Title".
Proof. reflexivity. Qed.

Example lower_mixed : PyStr.lower "FrInGe.MP4" = "fringe.mp4".
Proof. reflexivity. Qed.

Example endswith_part : PyStr.endswith "x.mp4.part" ".part" = true.
Proof. reflexivity. Qed.

Example sorted_names : sorted ["b.mp4"; "a.mkv"; "B.mp4"] = ["B.mp4"; "a.mkv"; "b.mp4"].
Proof. reflexivity. Qed.

(* ------------------------------------------------------------------ *)
(** * Properties of the matcher *)

Module ReFacts.

Import PyStr Re.

Section Soundness.

Variable ignorecase : bool.
Variable s : chars.


Lemma one_sound (p : ascii -> bool) : sound (one s p) (one_rel s p).
Proof.
  intros i m k res H. unfold one in H.
  destruct (nth_error s i) as [c|] eqn:E; [|discriminate].
  destruct (p c) eqn:P; [|discriminate].
  exists (S i), m. split; [|exact H].
  exists c. auto.
Qed.

Lemma chain_app (R : step_rel) a b i m k m1 j m' :
  chain R a i m k m1 -> chain R b k m1 j m' -> chain R (a + b) i m j m'.
Proof.
  revert i m. induction a as [|a IH]; simpl; intros i m.
  - intros [-> ->]. auto.
  - intros (k0 & m0 & HR & Hc) Hb. exists k0, m0. split; auto.
Qed.

Lemma rep_min_sound body R :
  sound body R -> forall n, sound (rep_min body n) (chain R n).
Proof.
  intros Hb n. induction n as [|n IH]; intros i m k res H; simpl in *.
  - exists i, m. auto.
  - apply Hb in H. destruct H as (j & m1 & HR & H).
    apply IH in H. destruct H as (j' & m' & Hc & H).
    exists j', m'. split; [|exact H]. exists j, m1. auto.
Qed.

Lemma within_0 budget : within budget 0.
Proof. destruct budget; simpl; lia. Qed.

Lemma within_S budget n :
  spent budget = false -> within (dec_budget budget) n -> within budget (S n).
Proof.
  destruct budget as [[|b]|]; simpl; intros; try discriminate; lia.
Qed.

Lemma rep_more_sound body R greedy :
  sound body R ->
  forall fuel budget,
    sound (rep_more body greedy fuel budget)
          (fun i m j m' => exists n, within budget n /\ chain R n i m j m').
Proof.
  intros Hb fuel. induction fuel as [|fuel IH]; intros budget i m k res H.
  - simpl in H. exists i, m. split; [|exact H].
    exists 0. split; [apply within_0|simpl; auto].
  - simpl in H.
    assert (Hstop : k i m = Some res ->
                    exists j m', (exists n, within budget n /\ chain R n i m j m')
                                 /\ k j m' = Some res).
    { intros Hk. exists i, m. split; [|exact Hk].
      exists 0. split; [apply within_0|simpl; auto]. }
    destruct (spent budget) eqn:Sp; [auto|].
    assert (Hiter :
      body i m (fun j m' =>
         if i <? j then rep_more body greedy fuel (dec_budget budget) j m' k
         else k j m') = Some res ->
      exists j m', (exists n, within budget n /\ chain R n i m j m')
                   /\ k j m' = Some res).
    { intros Hi. apply Hb in Hi. destruct Hi as (j & m1 & HR & Hi).
      destruct (i <? j).
      - apply IH in Hi. destruct Hi as (j' & m' & (n & Hw & Hc) & Hk).
        exists j', m'. split; [|exact Hk].
        exists (S n). split; [apply within_S; auto|].
        simpl. exists j, m1. auto.
      - exists j, m1. split; [|exact Hi].
        exists 1. split; [apply within_S; auto; apply within_0|].
        simpl. exists j, m1. auto. }
    destruct greedy.
    + destruct (body i m _) as [x|] eqn:B.
      * apply Hiter. exact H.
      * auto.
    + destruct (k i m) as [x|] eqn:K.
      * apply Hstop. exact H.
      * auto.
Qed.

(** Every success of the matcher is a match in the declarative sense. *)
Lemma rmatch_sound (r : regex) :
  forall g, sound (rmatch ignorecase s r g) (matches ignorecase s r g).
Proof.
  induction r as [ | a | | | | r1 IH1 r2 IH2 | r1 IH1 r2 IH2
                 | lo more greedy r1 IH1 | r1 IH1 ];
    intros g i m k res H; cbn [rmatch] in H.
  - exists i, m. simpl. auto.
  - apply one_sound in H. exact H.
  - apply one_sound in H. exact H.
  - apply one_sound in H. exact H.
  - apply one_sound in H. exact H.
  - apply IH1 in H. destruct H as (j & m1 & H1 & H).
    apply IH2 in H. destruct H as (j' & m' & H2 & H).
    exists j', m'. split; [|exact H]. simpl. exists j, m1. auto.
  - destruct (rmatch ignorecase s r1 g i m k) as [x|] eqn:E.
    + rewrite H in E. apply IH1 in E. destruct E as (j & m' & H1 & E).
      exists j, m'. simpl. auto.
    + apply IH2 in H. destruct H as (j & m' & H2 & H).
      exists j, m'. simpl. auto.
  - apply (rep_min_sound _ _ (IH1 g)) in H. destruct H as (j & m1 & Hc & H).
    apply (rep_more_sound _ _ greedy (IH1 g)) in H.
    destruct H as (j' & m' & (n & Hw & Hc') & H).
    exists j', m'. split; [|exact H]. simpl.
    exists n. split; [exact Hw|]. eapply chain_app; eauto.
  - apply IH1 in H. destruct H as (j & m1 & H1 & H).
    exists j, (set_mark g (i, j) m1). split; [|exact H].
    simpl. exists m1. auto.
Qed.

Lemma match_at_sound p i j m :
  match_at ignorecase s p i = Some (j, m) ->
  matches ignorecase s p 0 i (repeat None (ngroups p)) j m.
Proof.
  unfold match_at. intros H. apply rmatch_sound in H.
  destruct H as (j' & m' & Hm & Ha). unfold accept in Ha.
  injection Ha as -> ->. exact Hm.
Qed.

End Soundness.

(** *** Marks *)

Lemma set_mark_length g sp m : List.length (set_mark g sp m) = List.length m.
Proof.
  revert g. induction m as [|x m IH]; intros [|g]; simpl; auto.
Qed.

Lemma get_set_mark_same g sp m :
  g < List.length m -> get_mark g (set_mark g sp m) = Some sp.
Proof.
  unfold get_mark. revert g. induction m as [|x m IH]; intros [|g]; simpl; intros H;
    try lia; auto. apply IH. lia.
Qed.

Lemma get_set_mark_other g h sp m :
  h <> g -> get_mark h (set_mark g sp m) = get_mark h m.
Proof.
  unfold get_mark. revert g h.
  induction m as [|x m IH]; intros [|g] [|h]; simpl; intros H; auto; try lia.
Qed.

Section Frame.

Variable ignorecase : bool.
Variable s : chars.


Lemma one_framed g p : framed s g (one_rel s p).
Proof.
  intros i m j m' (c & Hc & _ & -> & ->) Hi.
  assert (i < List.length s) by (apply nth_error_Some; congruence).
  repeat split; auto; lia.
Qed.

Lemma chain_framed g R : framed s g R -> forall n, framed s g (chain R n).
Proof.
  intros HR n. induction n as [|n IH]; intros i m j m'; simpl.
  - intros [-> ->] Hi. repeat split; auto.
  - intros (k & m1 & H1 & H2) Hi.
    destruct (HR _ _ _ _ H1 Hi) as (L1 & F1 & B1).
    destruct (IH _ _ _ _ H2 (proj2 B1)) as (L2 & F2 & B2).
    repeat split; try lia.
    intros h Hh. rewrite F2, F1; auto.
Qed.

Lemma framed_weaken g g' R : g <= g' -> framed s g' R -> framed s g R.
Proof.
  intros Hg HR i m j m' H Hi.
  destruct (HR _ _ _ _ H Hi) as (L & F & B).
  repeat split; try lia. intros h Hh. apply F. lia.
Qed.

Lemma matches_framed (r : regex) : forall g, framed s g (matches ignorecase s r g).
Proof.
  induction r as [ | a | | | | r1 IH1 r2 IH2 | r1 IH1 r2 IH2
                 | lo more greedy r1 IH1 | r1 IH1 ]; intros g.
  - intros i m j m' [-> ->] Hi. repeat split; auto.
  - apply one_framed.
  - apply one_framed.
  - apply one_framed.
  - apply one_framed.
  - intros i m j m' (k & m1 & H1 & H2) Hi.
    destruct (IH1 g _ _ _ _ H1 Hi) as (L1 & F1 & B1).
    destruct (IH2 _ _ _ _ _ H2 (proj2 B1)) as (L2 & F2 & B2).
    repeat split; try lia.
    intros h Hh. rewrite F2, F1; auto. lia.
  - intros i m j m' [H|H] Hi.
    + apply (IH1 g _ _ _ _ H Hi).
    + assert (W : framed s g (matches ignorecase s r2 (g + ngroups r1)))
        by (apply framed_weaken with (g' := g + ngroups r1); [lia | apply IH2]).
      apply (W _ _ _ _ H Hi).
  - intros i m j m' (n & _ & H) Hi.
    exact (@chain_framed g _ (IH1 g) (lo + n) i m j m' H Hi).
  - intros i m j m' (m1 & H & ->) Hi.
    destruct (IH1 (S g) _ _ _ _ H Hi) as (L & F & B).
    rewrite set_mark_length. repeat split; try lia.
    intros h Hh. rewrite get_set_mark_other by lia. apply F. lia.
Qed.

End Frame.

(** *** The search loop *)

Section Search.

Variable ignorecase : bool.
Variable s : chars.

Lemma search_from_some p n i i' r :
  search_from ignorecase s p n i = Some (i', r) ->
  i <= i' <= i + n
  /\ match_at ignorecase s p i' = Some r
  /\ (forall x, i <= x < i' -> match_at ignorecase s p x = None).
Proof.
  revert i. induction n as [|n IH]; intros i; simpl;
    destruct (match_at ignorecase s p i) as [r0|] eqn:E; intros H;
    try discriminate.
  - injection H as <- <-. split; [lia|]. split; [exact E|]. intros x Hx. lia.
  - injection H as <- <-. split; [lia|]. split; [exact E|]. intros x Hx. lia.
  - apply IH in H. destruct H as (B & M & N).
    split; [lia|]. split; [exact M|].
    intros x Hx. destruct (Nat.eq_dec x i) as [->|Hne]; auto.
    apply N. lia.
Qed.

Lemma search_from_none p n i :
  search_from ignorecase s p n i = None <->
  (forall x, i <= x <= i + n -> match_at ignorecase s p x = None).
Proof.
  revert i. induction n as [|n IH]; intros i; simpl;
    destruct (match_at ignorecase s p i) as [r0|] eqn:E; split; intros H;
    try discriminate; auto.
  - specialize (H i). rewrite E in H. discriminate H. lia.
  - intros x Hx. assert (x = i) by lia. subst. exact E.
  - specialize (H i). rewrite E in H. discriminate H. lia.
  - intros x Hx. destruct (Nat.eq_dec x i) as [->|Hne]; auto.
    apply (proj1 (IH (S i)) H). lia.
  - apply IH. intros x Hx. apply H. lia.
Qed.

End Search.

Lemma chars_length (x : string) :
  List.length (list_ascii_of_string x) = String.length x.
Proof. induction x; simpl; auto. Qed.

(** [re.search] finds a match exactly when an anchored attempt succeeds
    at some offset of the subject, and reports the leftmost such offset:
    the match need not start at the beginning nor reach the end. *)
Lemma search_some ignorecase p subject mo :
  search ignorecase p subject = Some mo ->
  m_string mo = list_ascii_of_string subject
  /\ m_start mo <= String.length subject
  /\ match_at ignorecase (list_ascii_of_string subject) p (m_start mo)
     = Some (m_end mo, m_marks mo)
  /\ (forall x, x < m_start mo ->
                match_at ignorecase (list_ascii_of_string subject) p x = None).
Proof.
  unfold search. rewrite <- (chars_length subject).
  set (s := list_ascii_of_string subject). intros H.
  destruct (search_from ignorecase s p (List.length s) 0)
    as [[i [j m]]|] eqn:E; [|discriminate].
  injection H as <-. simpl.
  apply search_from_some in E. destruct E as (B & M & N).
  split; [reflexivity|]. split; [lia|]. split; [exact M|].
  intros x Hx. apply N. lia.
Qed.

Lemma search_none ignorecase p subject :
  search ignorecase p subject = None <->
  (forall x, x <= String.length subject ->
             match_at ignorecase (list_ascii_of_string subject) p x = None).
Proof.
  unfold search. rewrite <- (chars_length subject).
  destruct (search_from ignorecase (list_ascii_of_string subject) p
              (List.length (list_ascii_of_string subject)) 0)
    as [[i [j m]]|] eqn:E.
  - split; [discriminate|]. intros H.
    apply search_from_some in E. destruct E as (B & M & _).
    rewrite H in M; [discriminate|]. lia.
  - split; auto. intros _ x Hx.
    apply (proj1 (search_from_none _ _ _ _ _) E). lia.
Qed.

(** A match found by [search] lies inside the subject, and carries one
    mark per group of the pattern. *)
Lemma search_shape ignorecase p subject mo :
  search ignorecase p subject = Some mo ->
  m_start mo <= m_end mo <= String.length subject
  /\ List.length (m_marks mo) = ngroups p.
Proof.
  intros H. apply search_some in H.
  destruct H as (_ & B & M & _).
  rewrite <- chars_length in *.
  apply match_at_sound in M.
  destruct (@matches_framed _ _ p 0 _ _ _ _ M B) as (L & _ & B').
  rewrite L, repeat_length. auto.
Qed.

(** *** Fuel

    The loop of a repetition is given one unit of fuel more than there are
    characters left.  It never runs out: any larger amount gives the same
    result. *)

Section Fuel.

Variable ignorecase : bool.
Variable s : chars.

Lemma one_local p : local s (one s p).
Proof.
  intros i m k k' Hi Hk. unfold one.
  destruct (nth_error s i) as [c|] eqn:E; [|reflexivity].
  destruct (p c); [|reflexivity].
  apply Hk. assert (i < List.length s) by (apply nth_error_Some; congruence). lia.
Qed.

Lemma rep_min_local b n : local s b -> local s (rep_min b n).
Proof.
  intros Hb. induction n as [|n IH]; intros i m k k' Hi Hk; simpl.
  - apply Hk. lia.
  - apply Hb; [exact Hi|]. intros j m' Hj.
    apply IH; [lia|]. intros j' m'' Hj'. apply Hk. lia.
Qed.

Lemma rep_more_local b greedy fuel :
  local s b -> forall budget, local s (rep_more b greedy fuel budget).
Proof.
  intros Hb. induction fuel as [|fuel IH]; intros budget i m k k' Hi Hk; simpl.
  - apply Hk. lia.
  - rewrite <- (Hk i m) by lia.
    assert (E : b i m (fun j m' =>
                   if i <? j then rep_more b greedy fuel (dec_budget budget) j m' k
                   else k j m')
                = b i m (fun j m' =>
                   if i <? j then rep_more b greedy fuel (dec_budget budget) j m' k'
                   else k' j m')).
    { apply Hb; [exact Hi|]. intros j m' Hj.
      destruct (i <? j).
      - apply IH; [lia|]. intros j' m'' Hj'. apply Hk. lia.
      - apply Hk. exact Hj. }
    rewrite E. reflexivity.
Qed.

Lemma rep_more_fuel b greedy :
  local s b ->
  forall f1 f2 budget i m k,
    i <= List.length s ->
    List.length s - i < f1 -> List.length s - i < f2 ->
    rep_more b greedy f1 budget i m k = rep_more b greedy f2 budget i m k.
Proof.
  intros Hb f1. induction f1 as [|f1 IH]; intros f2 budget i m k Hi H1 H2; [lia|].
  destruct f2 as [|f2]; [lia|]. simpl.
  assert (E : b i m (fun j m' =>
                 if i <? j then rep_more b greedy f1 (dec_budget budget) j m' k
                 else k j m')
              = b i m (fun j m' =>
                 if i <? j then rep_more b greedy f2 (dec_budget budget) j m' k
                 else k j m')).
  { apply Hb; [exact Hi|]. intros j m' Hj.
    destruct (i <? j) eqn:L; [|reflexivity].
    apply Nat.ltb_lt in L. apply IH; lia. }
  rewrite E. reflexivity.
Qed.

Lemma rmatch_local (r : regex) : forall g, local s (rmatch ignorecase s r g).
Proof.
  induction r as [ | a | | | | r1 IH1 r2 IH2 | r1 IH1 r2 IH2
                 | lo more greedy r1 IH1 | r1 IH1 ];
    intros g; cbn [rmatch].
  - intros i m k k' Hi Hk. apply Hk. lia.
  - apply one_local.
  - apply one_local.
  - apply one_local.
  - apply one_local.
  - intros i m k k' Hi Hk. apply IH1; [exact Hi|]. intros j m' Hj.
    apply IH2; [lia|]. intros j' m'' Hj'. apply Hk. lia.
  - intros i m k k' Hi Hk.
    rewrite (IH1 g i m k k' Hi Hk), (IH2 (g + ngroups r1) i m k k' Hi Hk).
    reflexivity.
  - intros i m k k' Hi Hk. apply rep_min_local; [apply IH1|exact Hi|].
    intros j m' Hj. apply rep_more_local; [apply IH1|lia|].
    intros j' m'' Hj'. apply Hk. lia.
  - intros i m k k' Hi Hk. apply IH1; [exact Hi|].
    intros j m' Hj. apply Hk. exact Hj.
Qed.

(** The fuel a repetition starts with is enough. *)
Lemma repetition_fuel_enough r g greedy budget extra i m k :
  i <= List.length s ->
  rep_more (rmatch ignorecase s r g) greedy (S (List.length s - i)) budget i m k
  = rep_more (rmatch ignorecase s r g) greedy (S (List.length s - i) + extra)
             budget i m k.
Proof.
  intros Hi. apply rep_more_fuel; [apply rmatch_local|exact Hi|lia|lia].
Qed.

End Fuel.

(** *** Letter case of the subject

    With [re.IGNORECASE] the matcher cannot tell a subject from its
    lower-cased copy: it takes the same decisions at every position and
    returns the same spans. *)

Lemma lower_char_idem c : lower_char (lower_char c) = lower_char c.
Proof. destruct c as [[] [] [] [] [] [] [] []]; reflexivity. Qed.

Lemma is_space_lower c : is_space (lower_char c) = is_space c.
Proof. destruct c as [[] [] [] [] [] [] [] []]; reflexivity. Qed.

Lemma is_digit_lower c : is_digit (lower_char c) = is_digit c.
Proof. destruct c as [[] [] [] [] [] [] [] []]; reflexivity. Qed.

Lemma not_newline_lower c : not_newline (lower_char c) = not_newline c.
Proof. destruct c as [[] [] [] [] [] [] [] []]; reflexivity. Qed.

Lemma lit_eq_lower a c : lit_eq true a (lower_char c) = lit_eq true a c.
Proof. unfold lit_eq. rewrite lower_char_idem. reflexivity. Qed.

Section Case.

Variable s : chars.


Lemma one_agree p :
  (forall c, p (lower_char c) = p c) ->
  agree (one s p) (one (lower_chars s) p).
Proof.
  intros Hp i m k k' Hk. unfold one, lower_chars.
  rewrite nth_error_map.
  destruct (nth_error s i) as [c|]; simpl; auto.
  rewrite Hp. destruct (p c); auto.
Qed.

Lemma rep_min_agree b b' n :
  agree b b' -> agree (rep_min b n) (rep_min b' n).
Proof.
  intros Hb. induction n as [|n IH]; intros i m k k' Hk; simpl.
  - apply Hk.
  - apply Hb. intros j m'. apply IH. exact Hk.
Qed.

Lemma rep_more_agree b b' greedy fuel :
  agree b b' ->
  forall budget, agree (rep_more b greedy fuel budget) (rep_more b' greedy fuel budget).
Proof.
  intros Hb. induction fuel as [|fuel IH]; intros budget i m k k' Hk; simpl;
    [apply Hk|].
  rewrite <- (Hk i m).
  assert (E : b i m (fun j m' =>
                 if i <? j then rep_more b greedy fuel (dec_budget budget) j m' k
                 else k j m')
              = b' i m (fun j m' =>
                 if i <? j then rep_more b' greedy fuel (dec_budget budget) j m' k'
                 else k' j m')).
  { apply Hb. intros j m'. destruct (i <? j); auto. apply IH. exact Hk. }
  rewrite E. reflexivity.
Qed.

Lemma rmatch_agree (r : regex) :
  forall g, agree (rmatch true s r g) (rmatch true (lower_chars s) r g).
Proof.
  induction r as [ | a | | | | r1 IH1 r2 IH2 | r1 IH1 r2 IH2
                 | lo more greedy r1 IH1 | r1 IH1 ];
    intros g; cbn [rmatch].
  - intros i m k k' Hk. apply Hk.
  - apply one_agree. apply lit_eq_lower.
  - apply one_agree. apply not_newline_lower.
  - apply one_agree. apply is_space_lower.
  - apply one_agree. apply is_digit_lower.
  - intros i m k k' Hk. apply IH1. intros j m'. apply IH2. exact Hk.
  - intros i m k k' Hk.
    rewrite (IH1 g i m k k' Hk), (IH2 (g + ngroups r1) i m k k' Hk). reflexivity.
  - intros i m k k' Hk. apply rep_min_agree; [apply IH1|].
    intros j m'. unfold lower_chars. rewrite length_map.
    apply rep_more_agree; [apply IH1|exact Hk].
  - intros i m k k' Hk. apply IH1. intros j m'. apply Hk.
Qed.

Lemma search_from_lower p n i :
  search_from true (lower_chars s) p n i = search_from true s p n i.
Proof.
  revert i. induction n as [|n IH]; intros i; simpl; unfold match_at;
    rewrite <- (rmatch_agree p 0 i (repeat None (ngroups p)) accept accept)
      by reflexivity;
    destruct (rmatch true s p 0 i (repeat None (ngroups p)) accept); auto.
Qed.

End Case.


Lemma lower_chars_of_lower (x : string) :
  list_ascii_of_string (lower x) = lower_chars (list_ascii_of_string x).
Proof. unfold lower. apply list_ascii_of_string_of_list_ascii. Qed.

(** Names that differ only in letter case match alike. *)
Lemma search_ignores_case p x y :
  lower x = lower y ->
  option_map spans (search true p x) = option_map spans (search true p y).
Proof.
  intros E.
  assert (E' : lower_chars (list_ascii_of_string x)
               = lower_chars (list_ascii_of_string y))
    by (rewrite <- !lower_chars_of_lower; congruence).
  assert (L : List.length (list_ascii_of_string x)
              = List.length (list_ascii_of_string y)).
  { apply (f_equal (@List.length ascii)) in E'.
    unfold lower_chars in E'. rewrite !length_map in E'. exact E'. }
  unfold search.
  rewrite <- (search_from_lower (list_ascii_of_string x)).
  rewrite <- (search_from_lower (list_ascii_of_string y)).
  rewrite E', L.
  destruct (search_from true (lower_chars (list_ascii_of_string y)) p
              (List.length (list_ascii_of_string y)) 0) as [[i [j m]]|];
    reflexivity.
Qed.

End ReFacts.

(* ------------------------------------------------------------------ *)
(** * The episode matcher *)


Module Matcher.

Import PyStr Re Py OrganizeShows ReFacts.

Lemma parse_with_skip pre rest filename :
  (forall q, In q pre -> search true q filename = None) ->
  parse_with (pre ++ rest) filename = parse_with rest filename.
Proof.
  induction pre as [|q pre IH]; intros H; simpl; auto.
  rewrite (H q) by (left; reflexivity).
  apply IH. intros q' Hq'. apply H. right. exact Hq'.
Qed.

Lemma parse_with_first pre p post filename mo :
  (forall q, In q pre -> search true q filename = None) ->
  search true p filename = Some mo ->
  parse_with (pre ++ p :: post) filename = extract mo.
Proof.
  intros Hpre Hp. rewrite parse_with_skip by exact Hpre.
  simpl. rewrite Hp. reflexivity.
Qed.

Lemma groups_length mo : List.length (groups mo) = List.length (m_marks mo).
Proof. unfold groups. apply length_map. Qed.

Lemma group_in_range mo g :
  g < List.length (m_marks mo) -> group mo (S g) = Ok (nth g (groups mo) None).
Proof.
  intros H. simpl. apply Nat.ltb_lt in H. rewrite H. reflexivity.
Qed.

Lemma group_out_of_range mo g :
  List.length (m_marks mo) <= g -> group mo (S g) = Raise (IndexError "no such group").
Proof.
  intros H. simpl. apply Nat.ltb_ge in H. rewrite H. reflexivity.
Qed.

(** Two names that differ in letter case only have the same lower-casing. *)
Lemma same_letters_lower (x y : string) :
  Forall2 (fun a b => lower_char a = lower_char b)
          (list_ascii_of_string x) (list_ascii_of_string y) ->
  lower x = lower y.
Proof.
  intros F. unfold lower, lower_chars. f_equal.
  induction F as [|a b l l' Hab F IH]; simpl; congruence.
Qed.

(** The matcher of organize_fringe.py in terms of the groups of its
    match. *)
Lemma fringe_parse_groups (name : string) :
  OrganizeFringe.parse_episode_info name
  = match search false OrganizeFringe.episode_pattern name with
    | Some mo => Ok (nth 0 (groups mo) None, nth 1 (groups mo) None)
    | None => Ok (None, None)
    end.
Proof.
  unfold OrganizeFringe.parse_episode_info.
  destruct (search false OrganizeFringe.episode_pattern name) as [mo|] eqn:S;
    [|reflexivity].
  destruct (search_shape _ _ _ _ S) as [_ L].
  change (ngroups OrganizeFringe.episode_pattern) with 2 in L.
  rewrite !group_in_range by lia. reflexivity.
Qed.

(** C1, as the code has it.  [ShowOrganizer.parse_episode_info] tries the
    patterns of the profile in their declared order and stops at the
    first one that finds a match: when the patterns before [p] find
    nothing in the file name and [p] finds the match [mo], the outcome is
    decided by [mo] alone, whatever patterns follow [p].
    - When [p] defines at least two groups and its third group, if it
      defines one, took part in the match, the matcher returns the text
      of group one as season, of group two as episode, and as title the
      trimmed text of group three, or no title when [p] has two groups.
    - When [p] defines fewer than two groups the matcher raises
      [IndexError], and when its third group stayed out of the match it
      raises [AttributeError]; the patterns after [p] are not tried then
      either.
    - The match is a search: the groups are pieces of the file name,
      [mo] is the match of the leftmost anchored attempt that succeeds,
      at any offset, and it need not cover the name.
    - The search ignores letter case: in a name of the same length whose
      characters differ from those of the file name in case only, the
      patterns before [p] find nothing either and [p] finds a match with
      the same spans.  (Names are strings over the code points 0..255.)
    - The script organize_fringe.py has no profile and one pattern; its
      [parse_episode_info] returns groups one and two of the match that
      its own call of [re.search] finds, and the all-absent pair when
      there is none. *)
Theorem parse_first_match_wins
        (self : ShowOrganizer) (filename : string)
        (pre post : list regex) (p : regex) (mo : match_obj) :
  patterns (show_cfg self) = pre ++ p :: post ->
  (forall q, In q pre -> search true q filename = None) ->
  search true p filename = Some mo ->
  (2 <= ngroups p ->
   (3 <= ngroups p -> nth 2 (groups mo) None <> None) ->
   parse_episode_info self filename
   = Ok (nth 0 (groups mo) None,
         nth 1 (groups mo) None,
         if 3 <=? ngroups p
         then option_map strip (nth 2 (groups mo) None)
         else None))
  /\ (ngroups p < 2 ->
      parse_episode_info self filename = Raise (IndexError "no such group"))
  /\ (3 <= ngroups p -> nth 2 (groups mo) None = None ->
      parse_episode_info self filename
      = Raise (AttributeError "'NoneType' object has no attribute 'strip'"))
  /\ (forall post',
         parse_with (pre ++ p :: post') filename
         = parse_episode_info self filename)
  /\ (m_string mo = list_ascii_of_string filename
      /\ m_start mo <= m_end mo <= String.length filename
      /\ match_at true (list_ascii_of_string filename) p (m_start mo)
         = Some (m_end mo, m_marks mo)
      /\ forall x, x < m_start mo ->
                   match_at true (list_ascii_of_string filename) p x = None)
  /\ (forall other,
         Forall2 (fun a b => lower_char a = lower_char b)
                 (list_ascii_of_string other) (list_ascii_of_string filename) ->
         (forall q, In q pre -> search true q other = None)
         /\ option_map spans (search true p other) = Some (spans mo))
  /\ (forall name,
         OrganizeFringe.parse_episode_info name
         = match search false OrganizeFringe.episode_pattern name with
           | Some mo' => Ok (nth 0 (groups mo') None, nth 1 (groups mo') None)
           | None => Ok (None, None)
           end).
Proof.
  intros Hpats Hpre Hp.
  assert (E : forall post', parse_with (pre ++ p :: post') filename = extract mo)
    by (intros post'; apply parse_with_first; assumption).
  assert (E0 : parse_episode_info self filename = extract mo)
    by (unfold parse_episode_info; rewrite Hpats; apply E).
  destruct (search_shape _ _ _ _ Hp) as [B L].
  destruct (search_some _ _ _ _ Hp) as (S & _ & M & N).
  assert (G : List.length (groups mo) = ngroups p)
    by (rewrite groups_length; exact L).
  split; [|split; [|split; [|split; [|split; [|split]]]]].
  - intros H2 H3. rewrite E0. unfold extract.
    rewrite !group_in_range by lia. cbn [rbind]. rewrite G.
    destruct (3 <=? ngroups p) eqn:E3; [|reflexivity].
    apply Nat.leb_le in E3. rewrite group_in_range by lia. cbn [rbind].
    specialize (H3 E3).
    destruct (nth 2 (groups mo) None) as [t|]; [reflexivity|congruence].
  - intros H. rewrite E0. unfold extract.
    destruct (Nat.eq_dec (ngroups p) 0) as [Z|Z].
    + rewrite (group_out_of_range mo 0) by lia. reflexivity.
    + rewrite (group_in_range mo 0) by lia. cbn [rbind].
      rewrite (group_out_of_range mo 1) by lia. reflexivity.
  - intros H3 T. rewrite E0. unfold extract.
    rewrite !group_in_range by lia. cbn [rbind]. rewrite G.
    apply Nat.leb_le in H3. rewrite H3, T. reflexivity.
  - intros post'. rewrite E0. apply E.
  - auto.
  - intros other F. apply same_letters_lower in F. split.
    + intros q Hq.
      pose proof (search_ignores_case q _ _ F) as C.
      rewrite (Hpre q Hq) in C.
      destruct (search true q other); [discriminate|reflexivity].
    + rewrite (search_ignores_case p _ _ F), Hp. reflexivity.
  - apply fringe_parse_groups.
Qed.

(** A lower-case name with the episode tag in the middle, under a profile
    whose first pattern does not apply: the second pattern decides and the
    third is never asked. *)
Lemma parse_first_match_wins_witness :
  parse_episode_info Samples.fallback "my.show.s03e07.hdtv.mkv"
  = Ok (Some "03", Some "07", None).
Proof.
  refine (proj1 (parse_first_match_wins
                   Samples.fallback "my.show.s03e07.hdtv.mkv"
                   [fringe_pattern] [Samples.digits_pattern] Samples.loose_pattern
                   (MkMatch (list_ascii_of_string "my.show.s03e07.hdtv.mkv")
                            8 14 [Some (9, 11); Some (12, 14)])
                   eq_refl _ _) _ _).
  - intros q [<-|[]]. vm_compute. reflexivity.
  - vm_compute. reflexivity.
  - simpl. lia.
  - simpl. lia.
Defined.

(** C1 as stated fails for a profile whose first pattern has an optional
    third group: on a name without the optional part the first pattern
    matches, and the matcher raises instead of returning what that
    pattern extracted; the fallback pattern, which would have given a
    season and an episode, is not tried. *)
Lemma first_match_raises :
  patterns (show_cfg Samples.optional_first)
  = [Samples.optional_title_pattern; Samples.loose_pattern]
  /\ option_map spans (search true Samples.optional_title_pattern "S01E02.mkv")
     = Some (0, 6, [Some (1, 3); Some (4, 6); None])
  /\ parse_episode_info Samples.optional_first "S01E02.mkv"
     = Raise (AttributeError "'NoneType' object has no attribute 'strip'")
  /\ (forall i, parse_episode_info Samples.optional_first "S01E02.mkv" <> Ok i)
  /\ parse_with [Samples.loose_pattern] "S01E02.mkv"
     = Ok (Some "01", Some "02", None).
Proof.
  split; [reflexivity|]. split; [vm_compute; reflexivity|].
  split; [vm_compute; reflexivity|].
  split; [intros i; vm_compute; discriminate|].
  vm_compute. reflexivity.
Qed.

(** C8.  A file name in which no pattern of the profile finds anything
    gives the all-absent triple, as a value and not as an exception; the
    loop of [organize] then counts the file as skipped and goes on with
    the next one, in any world and in both modes, without touching the
    world. *)
Theorem no_match_is_normal (self : ShowOrganizer) (filename : string) :
  (forall q, In q (patterns (show_cfg self)) -> search true q filename = None) ->
  parse_episode_info self filename = Ok (None, None, None)
  /\ (forall (World : Type) (os : OS World) (source_dir dest_base : path)
             (dry_run : bool) (rest : list string) (c k : nat) (st : state World),
         process self source_dir dest_base dry_run (filename :: rest) c k st
         = process self source_dir dest_base dry_run rest c (S k)
                   (MkState (world st) (stdout st ++ [Skipping filename]))).
Proof.
  intros H.
  assert (E : parse_episode_info self filename = Ok (None, None, None)).
  { unfold parse_episode_info.
    rewrite <- (app_nil_r (patterns (show_cfg self))).
    rewrite parse_with_skip by exact H. reflexivity. }
  split; [exact E|].
  intros World os source_dir dest_base dry_run rest c k st.
  cbn [process]. unfold bind at 1, lift. rewrite E. reflexivity.
Qed.

Lemma no_match_is_normal_witness :
  parse_episode_info Samples.fringe "random_video.mp4" = Ok (None, None, None).
Proof.
  refine (proj1 (no_match_is_normal Samples.fringe "random_video.mp4" _)).
  intros q [<-|[]]. vm_compute. reflexivity.
Defined.

(** C6, as the code has it.  When the first matching pattern defines at
    least two groups, the matcher returns groups one and two as season and
    episode; the title is the third group with surrounding white space
    removed when the pattern defines at least three groups and the third
    took part in the match, and is absent when the pattern defines only
    two. *)
Theorem title_from_third_group
        (self : ShowOrganizer) (filename : string)
        (pre post : list regex) (p : regex) (mo : match_obj) :
  patterns (show_cfg self) = pre ++ p :: post ->
  (forall q, In q pre -> search true q filename = None) ->
  search true p filename = Some mo ->
  2 <= ngroups p ->
  (3 <= ngroups p -> nth 2 (groups mo) None <> None) ->
  parse_episode_info self filename
  = Ok (nth 0 (groups mo) None,
        nth 1 (groups mo) None,
        if 3 <=? ngroups p
        then option_map strip (nth 2 (groups mo) None)
        else None).
Proof.
  intros Hpats Hpre Hp H2 H3.
  unfold parse_episode_info. rewrite Hpats.
  rewrite (parse_with_first _ _ _ _ _ Hpre Hp).
  destruct (search_shape _ _ _ _ Hp) as [_ L].
  unfold extract.
  rewrite !group_in_range by lia. cbn [rbind].
  rewrite groups_length, L.
  destruct (3 <=? ngroups p) eqn:E3.
  - apply Nat.leb_le in E3. rewrite group_in_range by lia. cbn [rbind].
    specialize (H3 E3).
    destruct (nth 2 (groups mo) None) as [t|]; [reflexivity|congruence].
  - reflexivity.
Qed.

Lemma title_from_third_group_witness :
  parse_episode_info Samples.fringe "Fringe S04E01   Pilot   (1080p).mp4"
  = Ok (Some "04", Some "01", Some "Pilot").
Proof.
  refine (title_from_third_group
            Samples.fringe "Fringe S04E01   Pilot   (1080p).mp4"
            [] [] fringe_pattern
            (MkMatch (list_ascii_of_string "Fringe S04E01   Pilot   (1080p).mp4")
                     0 31 [Some (8, 10); Some (11, 13); Some (16, 21)])
            eq_refl _ _ _ _).
  - intros q [].
  - vm_compute. reflexivity.
  - vm_compute. lia.
  - intros _. vm_compute. discriminate.
Defined.

(** With a two-group pattern the title is absent. *)
Example two_groups_no_title :
  parse_episode_info Samples.fallback "my.show.s03e07.hdtv.mkv"
  = Ok (Some "03", Some "07", None).
Proof. vm_compute. reflexivity. Qed.

(** C6 as stated fails when the third group is optional and stays out of
    the match: the pattern defines three groups, it matches, and the
    matcher raises instead of returning a title. *)
Lemma optional_third_group_raises :
  ngroups Samples.optional_title_pattern = 3
  /\ search true Samples.optional_title_pattern "S01E02.mkv" <> None
  /\ parse_episode_info Samples.optional_title "S01E02.mkv"
     = Raise (AttributeError "'NoneType' object has no attribute 'strip'")
  /\ (forall i, parse_episode_info Samples.optional_title "S01E02.mkv" <> Ok i).
Proof.
  split; [reflexivity|]. split; [vm_compute; discriminate|].
  split; [vm_compute; reflexivity|].
  intros i. vm_compute. discriminate.
Qed.

(** The same profile on a name that has the optional part. *)
Example optional_third_group_present :
  parse_episode_info Samples.optional_title "S01E02 The Same Old Story"
  = Ok (Some "01", Some "02", Some "The Same Old Story").
Proof. vm_compute. reflexivity. Qed.

(** A pattern with fewer than two groups: [match.group(2)] raises. *)
Example one_group_raises :
  parse_with [seq [Lit "E"; Grp (Times 2 Digit)]] "E05.mkv"
  = Raise (IndexError "no such group").
Proof. vm_compute. reflexivity. Qed.

(** *** Groups of a pattern written as a sequence *)

Section Captures.

Variable ignorecase : bool.
Variable s : chars.

Lemma seq_app_matches l1 l2 g i m j m' :
  matches ignorecase s (seq (l1 ++ l2)) g i m j m' ->
  exists k m1,
    matches ignorecase s (seq l1) g i m k m1
    /\ matches ignorecase s (seq l2) (g + ngroups (seq l1)) k m1 j m'.
Proof.
  revert g i m. induction l1 as [|x l1 IH]; intros g i m H.
  - exists i, m. simpl. rewrite Nat.add_0_r. auto.
  - simpl in H. destruct H as (k & m1 & Hx & H).
    apply IH in H. destruct H as (k' & m2 & H1 & H2).
    exists k', m2. split.
    + simpl. exists k, m1. auto.
    + simpl. rewrite Nat.add_assoc. exact H2.
Qed.

(** A group that stands at the top level of a sequence takes part in
    every match, and its mark is the span its body consumed. *)
Lemma top_level_group pre r post i m j m' :
  matches ignorecase s (seq (pre ++ Grp r :: post)) 0 i m j m' ->
  i <= List.length s ->
  ngroups (seq pre) < List.length m ->
  exists a b m1 m2,
    matches ignorecase s r (S (ngroups (seq pre))) a m1 b m2
    /\ a <= List.length s
    /\ get_mark (ngroups (seq pre)) m' = Some (a, b).
Proof.
  intros H Hi Hg.
  apply seq_app_matches in H. destruct H as (a & m1 & Hpre & H).
  destruct (@matches_framed ignorecase s (seq pre) 0 _ _ _ _ Hpre Hi)
    as (L1 & _ & B1).
  simpl in H. destruct H as (b & m3 & (m2 & Hr & ->) & Hpost).
  destruct (@matches_framed ignorecase s r _ _ _ _ _ Hr (proj2 B1))
    as (L2 & _ & B2).
  exists a, b, m1, m2. split; [exact Hr|]. split; [lia|].
  destruct (@matches_framed ignorecase s (seq post) _ _ _ _ _ Hpost (proj2 B2))
    as (_ & F & _).
  rewrite F by lia.
  apply get_set_mark_same. lia.
Qed.

Lemma two_digits_consumed g a m1 b m2 :
  matches ignorecase s (Times 2 Digit) g a m1 b m2 ->
  exists d1 d2,
    nth_error s a = Some d1 /\ nth_error s (S a) = Some d2
    /\ is_digit d1 = true /\ is_digit d2 = true /\ b = S (S a).
Proof.
  simpl. intros (n & Hn & H). assert (n = 0) by lia. subst n.
  simpl in H.
  destruct H as (k1 & q1 & (d1 & E1 & D1 & -> & ->)
                 & k2 & q2 & (d2 & E2 & D2 & -> & ->) & -> & _).
  exists d1, d2. auto.
Qed.

Lemma slice_two a d1 d2 :
  nth_error s a = Some d1 -> nth_error s (S a) = Some d2 ->
  slice s a (S (S a)) = String d1 (String d2 EmptyString).
Proof.
  unfold slice. replace (S (S a) - a) with 2 by lia.
  revert s. induction a as [|a IH]; intros l H1 H2.
  - destruct l as [|x [|y l]]; simpl in *; try discriminate.
    injection H1 as ->. injection H2 as ->. reflexivity.
  - destruct l as [|x l]; simpl in *; try discriminate.
    apply IH; assumption.
Qed.

End Captures.

Lemma nth_groups mo g :
  nth g (groups mo) None
  = option_map (fun sp => slice (m_string mo) (fst sp) (snd sp))
               (get_mark g (m_marks mo)).
Proof.
  unfold groups, get_mark.
  exact (map_nth (option_map (fun sp => slice (m_string mo) (fst sp) (snd sp)))
                 (m_marks mo) None g).
Qed.

(** In a pattern with a [(\d{2})] group at the top level, that group is
    two digits in every match. *)
Lemma two_digit_group ignorecase pre post filename mo :
  search ignorecase (seq (pre ++ Grp (Times 2 Digit) :: post)) filename = Some mo ->
  exists x, nth (ngroups (seq pre)) (groups mo) None = Some x
            /\ two_digits x = true.
Proof.
  intros H.
  destruct (search_shape _ _ _ _ H) as [_ L].
  destruct (search_some _ _ _ _ H) as (Es & B & M & _).
  rewrite <- chars_length in B.
  apply match_at_sound in M.
  assert (G : ngroups (seq pre) < ngroups (seq (pre ++ Grp (Times 2 Digit) :: post))).
  { clear. induction pre as [|x pre IH]; simpl in *; lia. }
  destruct (top_level_group _ _ pre _ post _ _ _ _ M B) as (a & b & m1 & m2 & Hr & Ha & Hm).
  { rewrite repeat_length. exact G. }
  apply two_digits_consumed in Hr.
  destruct Hr as (d1 & d2 & E1 & E2 & D1 & D2 & ->).
  exists (String d1 (String d2 EmptyString)).
  rewrite nth_groups, Hm, Es. simpl.
  rewrite (slice_two _ _ _ _ E1 E2), D1, D2. auto.
Qed.

(** A group at the top level of the pattern is never [None]. *)
Lemma top_level_group_present ignorecase pre r post filename mo :
  search ignorecase (seq (pre ++ Grp r :: post)) filename = Some mo ->
  exists x, nth (ngroups (seq pre)) (groups mo) None = Some x.
Proof.
  intros H.
  destruct (search_some _ _ _ _ H) as (Es & B & M & _).
  rewrite <- chars_length in B.
  apply match_at_sound in M.
  assert (G : ngroups (seq pre) < ngroups (seq (pre ++ Grp r :: post))).
  { clear. induction pre as [|x pre IH]; simpl in *; lia. }
  destruct (top_level_group _ _ pre _ post _ _ _ _ M B) as (a & b & m1 & m2 & _ & _ & Hm).
  { rewrite repeat_length. exact G. }
  rewrite nth_groups, Hm. simpl. eauto.
Qed.

Lemma ngroups_seq_group pre r post :
  ngroups (seq pre) < ngroups (seq (pre ++ Grp r :: post)).
Proof. induction pre as [|x pre IH]; simpl in *; lia. Qed.

(** A single pattern of the shape [... (\d{2}) ... (\d{2}) ... (r) ...],
    the three groups at the top level: the matcher returns either nothing
    at all or a two-digit season, a two-digit episode and a title. *)
Lemma episode_pattern_parse p pre1 post1 pre2 post2 pre3 r3 post3 filename :
  p = seq (pre1 ++ Grp (Times 2 Digit) :: post1) -> ngroups (seq pre1) = 0 ->
  p = seq (pre2 ++ Grp (Times 2 Digit) :: post2) -> ngroups (seq pre2) = 1 ->
  p = seq (pre3 ++ Grp r3 :: post3) -> ngroups (seq pre3) = 2 ->
  parse_with [p] filename = Ok (None, None, None)
  \/ exists season episode title,
       parse_with [p] filename = Ok (Some season, Some episode, Some title)
       /\ two_digits season = true /\ two_digits episode = true.
Proof.
  intros E1 G1 E2 G2 E3 G3. simpl.
  destruct (search true p filename) as [mo|] eqn:S; [right|left; reflexivity].
  destruct (search_shape _ _ _ _ S) as [_ L].
  assert (N : 3 <= ngroups p).
  { rewrite E3. pose proof (ngroups_seq_group pre3 r3 post3). lia. }
  assert (S1 := S). rewrite E1 in S1. apply two_digit_group in S1.
  assert (S2 := S). rewrite E2 in S2. apply two_digit_group in S2.
  assert (S3 := S). rewrite E3 in S3. apply top_level_group_present in S3.
  rewrite G1 in S1. rewrite G2 in S2. rewrite G3 in S3.
  destruct S1 as (season & Hs & Ds).
  destruct S2 as (episode & He & De).
  destruct S3 as (title & Ht).
  exists season, episode, (strip title).
  unfold extract. rewrite !group_in_range by lia.
  rewrite groups_length, L.
  assert (T : (3 <=? ngroups p) = true) by (apply Nat.leb_le; exact N).
  rewrite T, Hs, He, Ht. auto.
Qed.

Lemma registered_organizers key self :
  init key = Ok self -> self = Samples.fringe \/ self = Samples.battlestar.
Proof.
  unfold init. simpl.
  destruct (String.eqb key "fringe") eqn:E1.
  - apply String.eqb_eq in E1. subst. intros H. injection H as <-. left. reflexivity.
  - destruct (String.eqb key "battlestar") eqn:E2.
    + apply String.eqb_eq in E2. subst. intros H. injection H as <-. right. reflexivity.
    + discriminate.
Qed.

Lemma skip_step (World : Type) (os : OS World) self source_dir dest_base dry_run
      filename rest c k (st : state World) season episode title :
  parse_episode_info self filename = Ok (season, episode, title) ->
  truthy_opt season = false \/ truthy_opt episode = false ->
  process self source_dir dest_base dry_run (filename :: rest) c k st
  = process self source_dir dest_base dry_run rest c (S k)
            (MkState (world st) (stdout st ++ [Skipping filename])).
Proof.
  intros E H. cbn [process]. unfold bind at 1, lift. rewrite E.
  assert (T : negb (truthy_opt season) || negb (truthy_opt episode) = true)
    by (destruct H as [-> | ->]; simpl; auto using orb_true_r).
  rewrite T. reflexivity.
Qed.

(** C7.  Under a registered profile the matcher never raises and returns
    either nothing at all, or season, episode and title together with
    season and episode of exactly two digits each.  A file for which
    season or episode is missing is counted as skipped by the loop of
    [organize], which prints the notice and passes to the next file
    without creating a directory or copying: the world is unchanged. *)
Theorem registered_season_episode
        (key : string) (self : ShowOrganizer) (filename : string) :
  init key = Ok self ->
  (parse_episode_info self filename = Ok (None, None, None)
   \/ exists season episode title,
        parse_episode_info self filename = Ok (Some season, Some episode, Some title)
        /\ two_digits season = true /\ two_digits episode = true)
  /\ (forall (World : Type) (os : OS World) (source_dir dest_base : path)
             (dry_run : bool) (rest : list string) (c k : nat) (st : state World)
             (season episode title : option string),
         parse_episode_info self filename = Ok (season, episode, title) ->
         season = None \/ episode = None ->
         process self source_dir dest_base dry_run (filename :: rest) c k st
         = process self source_dir dest_base dry_run rest c (S k)
                   (MkState (world st) (stdout st ++ [Skipping filename]))).
Proof.
  intros Hinit. split.
  - destruct (registered_organizers _ _ Hinit) as [-> | ->];
      unfold parse_episode_info; simpl patterns.
    + apply (episode_pattern_parse fringe_pattern
               (lits "Fringe" ++ [Plus Space; Lit "S"])
               [Lit "E"; Grp (Times 2 Digit); Plus Space; Grp (PlusLazy AnyChar);
                Plus Space; Lit "("; StarLazy AnyChar; Lit ")"]
               (lits "Fringe" ++ [Plus Space; Lit "S"; Grp (Times 2 Digit); Lit "E"])
               [Plus Space; Grp (PlusLazy AnyChar);
                Plus Space; Lit "("; StarLazy AnyChar; Lit ")"]
               (lits "Fringe" ++ [Plus Space; Lit "S"; Grp (Times 2 Digit); Lit "E";
                                  Grp (Times 2 Digit); Plus Space])
               (PlusLazy AnyChar)
               [Plus Space; Lit "("; StarLazy AnyChar; Lit ")"]);
        reflexivity.
    + apply (episode_pattern_parse battlestar_pattern
               (lits "BSG" ++ [Plus Space; Lit "S"])
               [Lit "E"; Grp (Times 2 Digit); Plus Space; Grp (PlusLazy AnyChar);
                Plus Space; Lit "("; StarLazy AnyChar; Lit ")"]
               (lits "BSG" ++ [Plus Space; Lit "S"; Grp (Times 2 Digit); Lit "E"])
               [Plus Space; Grp (PlusLazy AnyChar);
                Plus Space; Lit "("; StarLazy AnyChar; Lit ")"]
               (lits "BSG" ++ [Plus Space; Lit "S"; Grp (Times 2 Digit); Lit "E";
                               Grp (Times 2 Digit); Plus Space])
               (PlusLazy AnyChar)
               [Plus Space; Lit "("; StarLazy AnyChar; Lit ")"]);
        reflexivity.
  - intros World os source_dir dest_base dry_run rest c k st season episode title E H.
    apply (skip_step World os _ _ _ _ _ _ _ _ _ _ _ _ E).
    destruct H as [-> | ->]; auto.
Qed.

Lemma registered_season_episode_witness :
  parse_episode_info Samples.battlestar "BSG S01E01 33 (720p).mkv"
  = Ok (None, None, None)
  \/ exists season episode title,
       parse_episode_info Samples.battlestar "BSG S01E01 33 (720p).mkv"
       = Ok (Some season, Some episode, Some title)
       /\ two_digits season = true /\ two_digits episode = true.
Proof.
  exact (proj1 (registered_season_episode
                  "battlestar" Samples.battlestar "BSG S01E01 33 (720p).mkv"
                  eq_refl)).
Defined.

Example battlestar_example :
  parse_episode_info Samples.battlestar "BSG S01E01 33 (720p).mkv"
  = Ok (Some "01", Some "01", Some "33").
Proof. vm_compute. reflexivity. Qed.

(** The older script has no profiles: it searches its one pattern as
    written, letter case included, and reads the title with a second
    pattern. *)
Example fringe_script_case :
  OrganizeFringe.parse_episode_info "Fringe S04E01 Pilot (1080p).mp4"
  = Ok (Some "04", Some "01")
  /\ OrganizeFringe.get_episode_title "Fringe S04E01 Pilot (1080p).mp4"
     = Ok (Some "Pilot")
  /\ OrganizeFringe.parse_episode_info "fringe s04e01 pilot (1080p).mp4"
     = Ok (None, None)
  /\ parse_episode_info Samples.fringe "fringe s04e01 pilot (1080p).mp4"
     = Ok (Some "04", Some "01", Some "pilot").
Proof. repeat split; vm_compute; reflexivity. Qed.

(** Digit runs of another width do not match a registered pattern. *)
Example one_digit_episode :
  parse_episode_info Samples.fringe "Fringe S4E1 Pilot (1080p).mp4"
  = Ok (None, None, None).
Proof. vm_compute. reflexivity. Qed.

(** Nor does a longer digit run: after two digits the pattern wants the
    letter E. *)
Example three_digit_season :
  parse_episode_info Samples.fringe "Fringe S004E01 Pilot (1080p).mp4"
  = Ok (None, None, None).
Proof. vm_compute. reflexivity. Qed.

End Matcher.


(* ------------------------------------------------------------------ *)
(** * The driver loop of organize_shows.py *)

Module Driver.

Import PyStr Re Py OrganizeShows Report.

Section Loop.

Context {World : Type} {os : OS World}.

Variable self : ShowOrganizer.
Variable source_dir dest_base : path.


(** One turn of the loop, case by case. *)
Lemma process_step dry_run file_name rest c k (st : state World) :
  process self source_dir dest_base dry_run (file_name :: rest) c k st
  = match parse_episode_info self file_name with
    | Raise e => (st, Raise e)
    | Ok (season, episode, title) =>
        if negb (truthy_opt season) || negb (truthy_opt episode) then
          process self source_dir dest_base dry_run rest c (S k)
                  (add st [Skipping file_name])
        else
          let rel := destination_rel self (str_of season) (str_of episode) title
                                     (suffix file_name) in
          let season_dir := joinpath dest_base ("Season " +++ str_of season) in
          let dest_file :=
            joinpath season_dir
                     (create_jellyfin_filename self (str_of season) (str_of episode)
                                               title (suffix file_name)) in
          if dry_run then
            process self source_dir dest_base dry_run rest (S c) k
                    (add st [Copying true file_name; To rel; Done true])
          else
            match mkdir_p season_dir (world st) with
            | (w1, Raise e) => (MkState w1 (stdout st), Raise e)
            | (w1, Ok _) =>
                match copy2 (joinpath source_dir file_name) dest_file w1 with
                | (w2, Ok _) =>
                    process self source_dir dest_base dry_run rest (S c) k
                            (MkState w2 (stdout st ++
                                         [Copying false file_name; To rel; Done false]))
                | (w2, Raise e) =>
                    process self source_dir dest_base dry_run rest c (S k)
                            (MkState w2 (stdout st ++
                                         [Copying false file_name; To rel; CopyError e]))
                end
            end
    end.
Proof.
  cbn [process]. unfold bind at 1, lift.
  destruct (parse_episode_info self file_name) as [[[season episode] title]|e];
    [|reflexivity].
  destruct (negb (truthy_opt season) || negb (truthy_opt episode)); [reflexivity|].
  cbv zeta.
  destruct dry_run.
  - unfold bind, try_except, when, print, ret, add; simpl.
    rewrite <- !app_assoc. reflexivity.
  - unfold bind, try_except, when, print, ret, sys_mkdir, sys_copy2; simpl.
    destruct (mkdir_p _ (world st)) as [w1 [[]|e]]; [|reflexivity].
    simpl.
    destruct (copy2 _ _ w1) as [w2 [[]|e]]; simpl;
      rewrite <- !app_assoc; reflexivity.
Qed.

Lemma add_add (st : state World) a b : add (add st a) b = add st (a ++ b).
Proof. unfold add. simpl. rewrite app_assoc. reflexivity. Qed.

Lemma add_nil (st : state World) : add st [] = st.
Proof. destruct st. unfold add. simpl. rewrite app_nil_r. reflexivity. Qed.

(** Every file passes through exactly one of the two counters. *)
Lemma process_counts dry_run files :
  forall c k (st st' : state World) c' k',
    process self source_dir dest_base dry_run files c k st = (st', Ok (c', k')) ->
    c' + k' = c + k + List.length files.
Proof.
  induction files as [|f rest IH]; intros c k st st' c' k' H.
  - simpl in H. injection H as _ <- <-. simpl. lia.
  - rewrite process_step in H.
    destruct (parse_episode_info self f) as [[[season episode] title]|e];
      [|discriminate].
    destruct (negb (truthy_opt season) || negb (truthy_opt episode)).
    { apply IH in H. simpl. lia. }
    cbv zeta in H. destruct dry_run.
    { apply IH in H. simpl. lia. }
    destruct (mkdir_p _ (world st)) as [w1 [[]|e]]; [|discriminate].
    destruct (copy2 _ _ w1) as [w2 [[]|e]]; apply IH in H; simpl; lia.
Qed.

(** A dry run leaves the world as it found it. *)
Lemma process_dry_world files :
  forall c k (st : state World),
    world (fst (process self source_dir dest_base true files c k st)) = world st.
Proof.
  induction files as [|f rest IH]; intros c k st; [reflexivity|].
  rewrite process_step.
  destruct (parse_episode_info self f) as [[[season episode] title]|e];
    [|reflexivity].
  destruct (negb (truthy_opt season) || negb (truthy_opt episode));
    cbv zeta; rewrite IH; reflexivity.
Qed.

(** The dry run against a real run that came to its end: same
    classification lines, and counts that differ by the failed copies. *)
Lemma dry_real files :
  forall cd kd cr kr (sd sr sr' : state World) crf krf,
    process self source_dir dest_base false files cr kr sr = (sr', Ok (crf, krf)) ->
    exists Dd Dr cdf kdf,
      process self source_dir dest_base true files cd kd sd
      = (add sd Dd, Ok (cdf, kdf))
      /\ stdout sr' = stdout sr ++ Dr
      /\ decisions Dd = decisions Dr
      /\ cdf + cr = crf + cd + copy_errors Dr
      /\ krf + kd = kdf + kr + copy_errors Dr.
Proof.
  induction files as [|f rest IH]; intros cd kd cr kr sd sr sr' crf krf H.
  - simpl in H. injection H as <- <- <-.
    exists [], [], cd, kd. simpl. rewrite add_nil, app_nil_r.
    repeat split; unfold copy_errors; simpl; lia.
  - rewrite process_step in H. rewrite process_step.
    destruct (parse_episode_info self f) as [[[season episode] title]|e];
      [|discriminate].
    destruct (negb (truthy_opt season) || negb (truthy_opt episode)).
    + destruct (IH cd (S kd) _ _ (add sd [Skipping f]) _ _ _ _ H)
        as (Dd & Dr & cdf & kdf & Hd & Hr & Hdec & Hc & Hk).
      exists (Skipping f :: Dd), (Skipping f :: Dr), cdf, kdf.
      rewrite Hd, add_add. simpl in Hr. rewrite Hr, <- app_assoc.
      repeat split; auto; try (unfold decisions in *; simpl; congruence);
        unfold copy_errors in *; simpl in *; lia.
    + cbv zeta in H. cbv zeta.
      destruct (mkdir_p _ (world sr)) as [w1 [[]|e]]; [|discriminate].
      destruct (copy2 _ _ w1) as [w2 [[]|e]].
      * destruct (IH (S cd) kd _ _
                     (add sd [Copying true f;
                              To (destination_rel self (str_of season) (str_of episode)
                                                  title (suffix f));
                              Done true]) _ _ _ _ H)
          as (Dd & Dr & cdf & kdf & Hd & Hr & Hdec & Hc & Hk).
        eexists (_ :: _ :: _ :: Dd), (_ :: _ :: _ :: Dr), cdf, kdf.
        rewrite Hd, add_add. simpl in Hr. rewrite Hr, <- app_assoc.
        split; [reflexivity|]. split; [reflexivity|].
        split; [unfold decisions in *; simpl; congruence|].
        unfold copy_errors in *; simpl in *; lia.
      * destruct (IH (S cd) kd _ _
                     (add sd [Copying true f;
                              To (destination_rel self (str_of season) (str_of episode)
                                                  title (suffix f));
                              Done true]) _ _ _ _ H)
          as (Dd & Dr & cdf & kdf & Hd & Hr & Hdec & Hc & Hk).
        eexists (_ :: _ :: _ :: Dd), (_ :: _ :: _ :: Dr), cdf, kdf.
        rewrite Hd, add_add. simpl in Hr. rewrite Hr, <- app_assoc.
        split; [reflexivity|]. split; [reflexivity|].
        split; [unfold decisions in *; simpl; congruence|].
        unfold copy_errors in *; simpl in *; lia.
Qed.

End Loop.

Section Organize.

Context {World : Type} {os : OS World}.

Variable script_dir : path.


(** [organize] laid out by cases. *)
Lemma organize_cases self source_dir dest_parent dry_run (st : state World) :
  organize script_dir self source_dir dest_parent dry_run st
  = let src := source_of script_dir source_dir in
    let base := dest_base_of script_dir self dest_parent in
    let st1 := add st (preamble script_dir self source_dir dest_parent dry_run) in
    if negb (path_exists src (world st)) then
      (add st1 [ErrorNoSource src], Ok false)
    else
      match iterdir src (world st) with
      | Raise e => (st1, Raise e)
      | Ok entries =>
          let files := map d_name (filter selected entries) in
          match files with
          | [] => (add st1 [NoVideoFiles], Ok false)
          | _ :: _ =>
              match process self src base dry_run (sorted files) 0 0
                            (add st1 [Found (List.length files)]) with
              | (st2, Raise e) => (st2, Raise e)
              | (st2, Ok (c, k)) => (add st2 [Summary dry_run c k base], Ok true)
              end
          end
      end.
Proof.
  unfold organize, preamble, source_of, dest_base_of.
  cbv zeta.
  set (src := if is_absolute source_dir then source_dir else script_dir ++ source_dir).
  set (base := joinpath _ (output_name (show_cfg self))).
  unfold bind, when, print, sys_exists, sys_iterdir, ret, add.
  destruct dry_run; simpl;
    (destruct (path_exists src (world st)); simpl;
     [ destruct (iterdir src (world st)) as [entries|e]; simpl;
       [ destruct (map d_name (filter selected entries)) as [|f fs] eqn:F; simpl;
         [ rewrite <- ?app_assoc; reflexivity
         | rewrite <- ?app_assoc; simpl;
           match goal with
           | |- context [process ?x1 ?x2 ?x3 ?x4 ?x5 ?x6 ?x7 ?x8] =>
               destruct (process x1 x2 x3 x4 x5 x6 x7 x8) as [st2 [[c k]|e]]
           end; reflexivity ]
       | rewrite <- ?app_assoc; reflexivity ]
     | rewrite <- ?app_assoc; reflexivity ]).
Qed.

End Organize.

End Driver.

(* ------------------------------------------------------------------ *)
(** * The driver loop of organize_fringe.py *)

Module FringeDriver.

Import PyStr Re Py OrganizeFringe Report.

Section Loop.

Context {World : Type} {os : OS World}.

Variable script_dir source_dir : path.

(** One turn of the loop, case by case. *)
Lemma fringe_process_step dry_run file_name rest c k (st : state World) :
  process script_dir source_dir dry_run (file_name :: rest) c k st
  = match parse_episode_info file_name with
    | Raise e => (st, Raise e)
    | Ok (season, episode) =>
        if negb (truthy_opt season) || negb (truthy_opt episode) then
          process script_dir source_dir dry_run rest c (S k)
                  (add st [Skipping file_name])
        else
          match get_episode_title file_name with
          | Raise e => (st, Raise e)
          | Ok title =>
              let season_name := "Season " +++ OrganizeShows.str_of season in
              let new_filename :=
                create_jellyfin_filename (OrganizeShows.str_of season)
                                         (OrganizeShows.str_of episode)
                                         title (suffix file_name) in
              let rel := render (dest_rel ++ [season_name; new_filename]) in
              let season_dir := joinpath (dest_base script_dir) season_name in
              if dry_run then
                process script_dir source_dir dry_run rest (S c) k
                        (add st [Copying true file_name; To rel; Done true])
              else
                match mkdir_p season_dir (world st) with
                | (w1, Raise e) => (MkState w1 (stdout st), Raise e)
                | (w1, Ok _) =>
                    match copy2 (joinpath source_dir file_name)
                                (joinpath season_dir new_filename) w1 with
                    | (w2, Ok _) =>
                        process script_dir source_dir dry_run rest (S c) k
                                (MkState w2 (stdout st ++
                                   [Copying false file_name; To rel; Done false]))
                    | (w2, Raise e) =>
                        process script_dir source_dir dry_run rest c (S k)
                                (MkState w2 (stdout st ++
                                   [Copying false file_name; To rel; CopyError e]))
                    end
                end
          end
    end.
Proof.
  cbn [process]. unfold bind at 1, lift.
  destruct (parse_episode_info file_name) as [[season episode]|e]; [|reflexivity].
  destruct (negb (truthy_opt season) || negb (truthy_opt episode)); [reflexivity|].
  unfold bind at 1.
  destruct (get_episode_title file_name) as [title|e]; [|reflexivity].
  cbv zeta.
  destruct dry_run.
  - unfold bind, try_except, when, print, ret, add; simpl.
    rewrite <- !app_assoc. reflexivity.
  - unfold bind, try_except, when, print, ret, sys_mkdir, sys_copy2; simpl.
    destruct (mkdir_p _ (world st)) as [w1 [[]|e]]; [|reflexivity].
    simpl.
    destruct (copy2 _ _ w1) as [w2 [[]|e]]; simpl;
      rewrite <- !app_assoc; reflexivity.
Qed.

Lemma fringe_process_counts dry_run files :
  forall c k (st st' : state World) c' k',
    process script_dir source_dir dry_run files c k st = (st', Ok (c', k')) ->
    c' + k' = c + k + List.length files.
Proof.
  induction files as [|f rest IH]; intros c k st st' c' k' H.
  - simpl in H. injection H as _ <- <-. simpl. lia.
  - rewrite fringe_process_step in H.
    destruct (parse_episode_info f) as [[season episode]|e]; [|discriminate].
    destruct (negb (truthy_opt season) || negb (truthy_opt episode)).
    { apply IH in H. simpl. lia. }
    destruct (get_episode_title f) as [title|e]; [|discriminate].
    cbv zeta in H. destruct dry_run.
    { apply IH in H. simpl. lia. }
    destruct (mkdir_p _ (world st)) as [w1 [[]|e]]; [|discriminate].
    destruct (copy2 _ _ w1) as [w2 [[]|e]]; apply IH in H; simpl; lia.
Qed.

End Loop.

Section Main.

Context {World : Type} {os : OS World}.

Variable script_dir : path.


(** [main] laid out by cases. *)
Lemma fringe_main_cases a (st : state World) :
  main script_dir a st
  = let src := fringe_source_of script_dir a in
    let st1 := add st (fringe_preamble script_dir a) in
    if negb (path_exists src (world st)) then
      (add st1 [ErrorNoSource src], Ok tt)
    else
      match iterdir src (world st) with
      | Raise e => (st1, Raise e)
      | Ok entries =>
          let files := map d_name (filter selected entries) in
          match files with
          | [] => (add st1 [NoVideoFiles], Ok tt)
          | _ :: _ =>
              match process script_dir src (a_dry_run a) (sorted files) 0 0
                            (add st1 [Found (List.length files)]) with
              | (st2, Raise e) => (st2, Raise e)
              | (st2, Ok (c, k)) =>
                  (add st2 [Summary (a_dry_run a) c k dest_rel], Ok tt)
              end
          end
      end.
Proof.
  unfold main, fringe_preamble, fringe_source_of.
  cbv zeta.
  set (src := if is_absolute (a_source a) then a_source a
              else script_dir ++ a_source a).
  unfold bind, when, print, sys_exists, sys_iterdir, ret, add.
  destruct (a_dry_run a); simpl;
    (destruct (path_exists src (world st)); simpl;
     [ destruct (iterdir src (world st)) as [entries|e]; simpl;
       [ destruct (map d_name (filter selected entries)) as [|f fs] eqn:F; simpl;
         [ rewrite <- ?app_assoc; reflexivity
         | rewrite <- ?app_assoc; simpl;
           match goal with
           | |- context [process ?x1 ?x2 ?x3 ?x4 ?x5 ?x6 ?x7] =>
               destruct (process x1 x2 x3 x4 x5 x6 x7) as [st2 [[c k]|e]]
           end; reflexivity ]
       | rewrite <- ?app_assoc; reflexivity ]
     | rewrite <- ?app_assoc; reflexivity ]).
Qed.

End Main.

End FringeDriver.

(* ------------------------------------------------------------------ *)
(** * Runs of the programs *)

Module Run.

Import PyStr Re Py Report.

Lemma insert_sorted_length x l :
  List.length (insert_sorted x l) = S (List.length l).
Proof.
  induction l as [|y l IH]; simpl; [reflexivity|].
  destruct (String.ltb x y); simpl; auto.
Qed.

Lemma sorted_length l : List.length (sorted l) = List.length l.
Proof.
  unfold sorted. rewrite <- (length_rev l).
  induction (rev l) as [|x r IH]; simpl; [reflexivity|].
  rewrite insert_sorted_length, IH. reflexivity.
Qed.

Lemma counts_app_summary l dry c k d :
  counts (l ++ [Summary dry c k d]) = Some (c, k).
Proof.
  induction l as [|e l IH]; simpl; [reflexivity|]. rewrite IH. reflexivity.
Qed.

Lemma decisions_app a b : decisions (a ++ b) = decisions a ++ decisions b.
Proof. unfold decisions. rewrite filter_app, map_app. reflexivity. Qed.

Lemma copy_errors_app a b : copy_errors (a ++ b) = copy_errors a + copy_errors b.
Proof. unfold copy_errors. rewrite filter_app, length_app. reflexivity. Qed.

(** C10.  In both scripts, when a run ends by printing the summary, the
    copied and the skipped count add up to the number of directory entries
    the scan selected: every selected file went through exactly one of
    the two counters, once. *)
Theorem counters_partition :
  (forall (World : Type) (os : OS World) (script_dir : path)
          (self : OrganizeShows.ShowOrganizer) (source_dir : path)
          (dest_parent : option path) (dry_run : bool)
          (st st' : state World) (b : bool)
          (dry : bool) (c k : nat) (d : path),
      OrganizeShows.organize script_dir self source_dir dest_parent dry_run st
      = (st', Ok b) ->
      last (stdout st') NoVideoFiles = Summary dry c k d ->
      exists entries,
        iterdir (source_of script_dir source_dir) (world st) = Ok entries
        /\ c + k = List.length (filter OrganizeShows.selected entries))
  /\ (forall (World : Type) (os : OS World) (script_dir : path)
             (a : OrganizeFringe.args) (st st' : state World)
             (dry : bool) (c k : nat) (d : path),
         OrganizeFringe.main script_dir a st = (st', Ok tt) ->
         last (stdout st') NoVideoFiles = Summary dry c k d ->
         exists entries,
           iterdir (fringe_source_of script_dir a) (world st) = Ok entries
           /\ c + k = List.length (filter OrganizeFringe.selected entries)).
Proof.
  split.
  - intros World os script_dir self source_dir dest_parent dry_run st st' b
           dry c k d H L.
    rewrite Driver.organize_cases in H. cbv zeta in H.
    destruct (negb (path_exists _ (world st))).
    { injection H as <- _. simpl in L. rewrite last_last in L. discriminate. }
    destruct (iterdir _ (world st)) as [entries|e]; [|discriminate].
    exists entries. split; [reflexivity|].
    destruct (map d_name (filter OrganizeShows.selected entries)) as [|f fs] eqn:F.
    { injection H as <- _. simpl in L. rewrite last_last in L. discriminate. }
    destruct (OrganizeShows.process _ _ _ _ _ _ _ _) as [st2 [[c0 k0]|e]] eqn:P;
      [|discriminate].
    injection H as <- _. simpl in L. rewrite last_last in L.
    injection L as _ <- <- _.
    apply Driver.process_counts in P.
    rewrite sorted_length, <- F, length_map in P. exact P.
  - intros World os script_dir a st st' dry c k d H L.
    rewrite FringeDriver.fringe_main_cases in H. cbv zeta in H.
    destruct (negb (path_exists _ (world st))).
    { injection H as <-. simpl in L. rewrite last_last in L. discriminate. }
    destruct (iterdir _ (world st)) as [entries|e]; [|discriminate].
    exists entries. split; [reflexivity|].
    destruct (map d_name (filter OrganizeFringe.selected entries)) as [|f fs] eqn:F.
    { injection H as <-. simpl in L. rewrite last_last in L. discriminate. }
    destruct (OrganizeFringe.process _ _ _ _ _ _ _) as [st2 [[c0 k0]|e]] eqn:P;
      [|discriminate].
    injection H as <-. simpl in L. rewrite last_last in L.
    injection L as _ <- <- _.
    apply FringeDriver.fringe_process_counts in P.
    rewrite sorted_length, <- F, length_map in P. exact P.
Qed.

(** Three files are selected; two are copied and one is skipped. *)
Lemma counters_partition_witness :
  exists entries,
    iterdir (source_of Toy.home ["FringeS04"]) Toy.season4_world = Ok entries
    /\ 2 + 1 = List.length (filter OrganizeShows.selected entries).
Proof.
  refine (proj1 counters_partition Toy.toy Toy.toy_os Toy.home Samples.fringe
                ["FringeS04"] None false (boot Toy.season4_world)
                (fst Runs.season4_real) true false 2 1
                (Toy.home ++ ["Media"; "Shows"; "Fringe"]) _ _).
  - vm_compute. reflexivity.
  - vm_compute. reflexivity.
Defined.

(** *** Dry run against real run *)

Lemma organize_dry_world (World : Type) (os : OS World) script_dir self
      source_dir dest_parent (st : state World) :
  world (fst (OrganizeShows.organize script_dir self source_dir dest_parent true st))
  = world st.
Proof.
  rewrite Driver.organize_cases. cbv zeta.
  destruct (negb (path_exists _ (world st))); [reflexivity|].
  destruct (iterdir _ (world st)) as [entries|e]; [|reflexivity].
  destruct (map d_name (filter OrganizeShows.selected entries)) as [|f fs];
    [reflexivity|].
  match goal with
  | |- context [OrganizeShows.process ?x1 ?x2 ?x3 ?x4 ?x5 ?x6 ?x7 ?x8] =>
      pose proof (Driver.process_dry_world x1 x2 x3 x5 x6 x7 x8) as W;
      destruct (OrganizeShows.process x1 x2 x3 x4 x5 x6 x7 x8) as [st2 [[c k]|e]]
  end; simpl in *; exact W.
Qed.

(** C3, as the code has it.  A dry run changes nothing in the world.
    Whenever the real run comes to its end, the dry run on the same input
    ends with the same return value and prints the same classification:
    the same files reported as unparseable and, for every other file, the
    same destination.  The counts agree up to the copies that failed in
    the real run, which the dry run counts as copied and the real run as
    skipped; they are identical when no copy failed. *)
Theorem dry_run_parity
        (World : Type) (os : OS World) (script_dir : path)
        (self : OrganizeShows.ShowOrganizer) (source_dir : path)
        (dest_parent : option path) (w : World) :
  world (fst (OrganizeShows.organize script_dir self source_dir dest_parent true
                                     (boot w))) = w
  /\ (forall (sr : state World) (b : bool),
         OrganizeShows.organize script_dir self source_dir dest_parent false (boot w)
         = (sr, Ok b) ->
         exists sd,
           OrganizeShows.organize script_dir self source_dir dest_parent true (boot w)
           = (sd, Ok b)
           /\ decisions (stdout sd) = decisions (stdout sr)
           /\ (forall cr kr,
                  counts (stdout sr) = Some (cr, kr) ->
                  copy_errors (stdout sr) <= kr
                  /\ counts (stdout sd)
                     = Some (cr + copy_errors (stdout sr),
                             kr - copy_errors (stdout sr)))).
Proof.
  split; [apply organize_dry_world|].
  intros sr b H.
  rewrite Driver.organize_cases in H. rewrite Driver.organize_cases.
  cbv zeta in *. simpl world in *.
  destruct (negb (path_exists _ w)).
  { injection H as <- <-. eexists. split; [reflexivity|].
    split; [reflexivity|]. simpl. discriminate. }
  destruct (iterdir _ w) as [entries|e]; [|discriminate].
  destruct (map d_name (filter OrganizeShows.selected entries)) as [|f fs].
  { injection H as <- <-. eexists. split; [reflexivity|].
    split; [reflexivity|]. simpl. discriminate. }
  destruct (OrganizeShows.process _ _ _ false _ _ _ _) as [st2 [[cr0 kr0]|e]] eqn:P;
    [|discriminate].
  injection H as <- <-.
  destruct (Driver.dry_real self _ _ _ 0 0 _ _
              (add (add (boot w)
                             (preamble script_dir self source_dir dest_parent true))
                          [Found (List.length (f :: fs))]) _ _ _ _ P)
    as (Dd & Dr & cdf & kdf & Hd & Hr & Hdec & Hc & Hk).
  rewrite Hd. eexists. split; [reflexivity|].
  simpl stdout. rewrite Hr. simpl stdout.
  split.
  - unfold decisions in *. simpl.
    rewrite ?filter_app, ?map_app. simpl. rewrite ?app_nil_r. exact Hdec.
  - intros cr kr C. rewrite counts_app_summary in C. injection C as <- <-.
    change (DryRunBanner :: ?a :: ?b :: Dd ++ ?s)
      with ([DryRunBanner; a; b] ++ Dd ++ s).
    rewrite app_assoc, counts_app_summary.
    rewrite !copy_errors_app.
    remember (copy_errors Dr) as n eqn:En.
    unfold copy_errors. simpl.
    split; [lia|]. f_equal. f_equal; lia.
Qed.

Lemma dry_run_parity_witness :
  exists sd,
    OrganizeShows.organize Toy.home Samples.fringe ["FringeS04"] None true
                           (boot Toy.season4_unreadable) = (sd, Ok true)
    /\ decisions (stdout sd) = decisions (stdout (fst Runs.unreadable_real))
    /\ (forall cr kr,
           counts (stdout (fst Runs.unreadable_real)) = Some (cr, kr) ->
           copy_errors (stdout (fst Runs.unreadable_real)) <= kr
           /\ counts (stdout sd)
              = Some (cr + copy_errors (stdout (fst Runs.unreadable_real)),
                      kr - copy_errors (stdout (fst Runs.unreadable_real)))).
Proof.
  refine (proj2 (dry_run_parity Toy.toy Toy.toy_os Toy.home Samples.fringe
                                ["FringeS04"] None Toy.season4_unreadable)
                (fst Runs.unreadable_real) true _).
  vm_compute. reflexivity.
Defined.

(** With no failing copy the two transcripts differ in the mode tags
    only, and the dry run made no call. *)
Example season4_parity :
  map neutral (stdout (fst Runs.season4_real))
  = map neutral (filter (fun e => match e with DryRunBanner => false | _ => true end)
                        (stdout (fst Runs.season4_dry)))
  /\ counts (stdout (fst Runs.season4_dry)) = counts (stdout (fst Runs.season4_real))
  /\ Toy.calls (world (fst Runs.season4_dry)) = []
  /\ List.length (Toy.calls (world (fst Runs.season4_real))) = 4.
Proof. repeat split; vm_compute; reflexivity. Qed.

(** C3 as stated fails on the counts: when one copy fails, the dry run
    reports two files copied and one skipped, the real run one copied and
    two skipped. *)
Lemma dry_run_counts_differ :
  counts (stdout (fst Runs.unreadable_dry)) = Some (2, 1)
  /\ counts (stdout (fst Runs.unreadable_real)) = Some (1, 2).
Proof. split; vm_compute; reflexivity. Qed.

(** *** Failures while a file is written *)

(** What the handler of the loop covers, in both scripts.  When the
    season directory could be created and the copy raises, the loop prints
    the error, adds one to the skipped count and goes on with the
    remaining files from the world the single failed call left behind:
    the copy is not tried again and the batch is not aborted.  Creating
    the season directory stands before the handler: when it raises, the
    exception leaves the loop. *)
Lemma copy_failure_is_skipped :
  (forall (World : Type) (os : OS World) (self : OrganizeShows.ShowOrganizer)
          (source_dir dest_base : path) (file_name : string) (rest : list string)
          (c k : nat) (st : state World)
          (season episode : string) (title : option string),
      OrganizeShows.parse_episode_info self file_name
      = Ok (Some season, Some episode, title) ->
      truthy season = true -> truthy episode = true ->
      let season_dir := joinpath dest_base ("Season " +++ season) in
      let dest_file :=
        joinpath season_dir
                 (OrganizeShows.create_jellyfin_filename
                    self season episode title (suffix file_name)) in
      let rel := OrganizeShows.destination_rel
                   self season episode title (suffix file_name) in
      (forall w1 w2 e,
          mkdir_p season_dir (world st) = (w1, Ok tt) ->
          copy2 (joinpath source_dir file_name) dest_file w1 = (w2, Raise e) ->
          OrganizeShows.process self source_dir dest_base false
                                (file_name :: rest) c k st
          = OrganizeShows.process self source_dir dest_base false rest c (S k)
              (MkState w2 (stdout st ++
                           [Copying false file_name; To rel; CopyError e])))
      /\ (forall w1 e,
             mkdir_p season_dir (world st) = (w1, Raise e) ->
             OrganizeShows.process self source_dir dest_base false
                                   (file_name :: rest) c k st
             = (MkState w1 (stdout st), Raise e)))
  /\ (forall (World : Type) (os : OS World) (script_dir source_dir : path)
             (file_name : string) (rest : list string)
             (c k : nat) (st : state World)
             (season episode : string) (title : option string),
         OrganizeFringe.parse_episode_info file_name = Ok (Some season, Some episode) ->
         OrganizeFringe.get_episode_title file_name = Ok title ->
         truthy season = true -> truthy episode = true ->
         let season_name := "Season " +++ season in
         let new_filename :=
           OrganizeFringe.create_jellyfin_filename
             season episode title (suffix file_name) in
         let season_dir := joinpath (OrganizeFringe.dest_base script_dir) season_name in
         let rel := render (OrganizeFringe.dest_rel ++ [season_name; new_filename]) in
         (forall w1 w2 e,
             mkdir_p season_dir (world st) = (w1, Ok tt) ->
             copy2 (joinpath source_dir file_name)
                   (joinpath season_dir new_filename) w1 = (w2, Raise e) ->
             OrganizeFringe.process script_dir source_dir false
                                    (file_name :: rest) c k st
             = OrganizeFringe.process script_dir source_dir false rest c (S k)
                 (MkState w2 (stdout st ++
                              [Copying false file_name; To rel; CopyError e])))
         /\ (forall w1 e,
                mkdir_p season_dir (world st) = (w1, Raise e) ->
                OrganizeFringe.process script_dir source_dir false
                                       (file_name :: rest) c k st
                = (MkState w1 (stdout st), Raise e))).
Proof.
  split.
  - intros World os self source_dir dest_base file_name rest c k st
           season episode title P Ts Te season_dir dest_file rel.
    split.
    + intros w1 w2 e Hm Hc. rewrite Driver.process_step, P.
      simpl truthy_opt. rewrite Ts, Te. simpl negb. simpl orb. cbv zeta.
      simpl OrganizeShows.str_of.
      fold season_dir. rewrite Hm. fold dest_file. rewrite Hc. reflexivity.
    + intros w1 e Hm. rewrite Driver.process_step, P.
      simpl truthy_opt. rewrite Ts, Te. simpl negb. simpl orb. cbv zeta.
      simpl OrganizeShows.str_of.
      fold season_dir. rewrite Hm. reflexivity.
  - intros World os script_dir source_dir file_name rest c k st
           season episode title P T Ts Te season_name new_filename season_dir rel.
    split.
    + intros w1 w2 e Hm Hc. rewrite FringeDriver.fringe_process_step, P.
      simpl truthy_opt. rewrite Ts, Te. simpl negb. simpl orb. rewrite T. cbv zeta.
      simpl OrganizeShows.str_of.
      fold season_name. fold new_filename. fold season_dir.
      rewrite Hm, Hc. reflexivity.
    + intros w1 e Hm. rewrite FringeDriver.fringe_process_step, P.
      simpl truthy_opt. rewrite Ts, Te. simpl negb. simpl orb. rewrite T. cbv zeta.
      simpl OrganizeShows.str_of.
      fold season_name. fold season_dir. rewrite Hm. reflexivity.
Qed.

(** The first episode cannot be copied: it is skipped, the video that
    follows is still looked at, and the copy was attempted once. *)
Lemma copy_failure_is_skipped_witness :
  snd Runs.unreadable_loop = Ok (0, 2)
  /\ List.length (Toy.calls (world (fst Runs.unreadable_loop))) = 2.
Proof.
  unfold Runs.unreadable_loop.
  destruct (proj1 copy_failure_is_skipped Toy.toy Toy.toy_os Samples.fringe
                  (Toy.home ++ ["FringeS04"])
                  (Toy.home ++ ["Media"; "Shows"; "Fringe"])
                  "Fringe S04E01 Neither Here Nor There (1080p).mp4"
                  ["random_video.mp4"] 0 0 (boot Toy.season4_unreadable)
                  "04" "01" (Some "Neither Here Nor There"))
    as [A _]; [vm_compute; reflexivity | reflexivity | reflexivity |].
  rewrite (A _ _ _ eq_refl eq_refl).
  split; vm_compute; reflexivity.
Defined.

(** C9, where the code departs from it.  A failed copy is recorded as
    skipped and the batch goes on (see [copy_failure_is_skipped]), but the
    step that creates the season directory is not covered: in a folder
    where "Season 04" cannot be created, the exception leaves [organize]
    at the first episode, the files that follow are never looked at and no
    summary is printed. *)
Theorem mkdir_failure_aborts :
  snd Runs.blocked_real = Raise (OSError "Not a directory")
  /\ mentions "Fringe S04E02 One Night in October (1080p).mp4"
              (stdout (fst Runs.blocked_real)) = false
  /\ mentions "random_video.mp4" (stdout (fst Runs.blocked_real)) = false
  /\ counts (stdout (fst Runs.blocked_real)) = None.
Proof. repeat split; vm_compute; reflexivity. Qed.

(** *** Exit status *)

Section Exit.

Context {World : Type} {os : OS World}.

Variable script_dir : path.

(** [main] laid out by cases. *)
Lemma shows_main_cases (a : OrganizeShows.args) (st : state World) :
  OrganizeShows.main script_dir a st
  = match OrganizeShows.init (lower (OrganizeShows.a_show a)) with
    | Raise e =>
        if is_ValueError e then (add st [MainError e], Ok 1)
        else (st, Raise e)
    | Ok self =>
        match OrganizeShows.organize script_dir self (OrganizeShows.a_source a)
                                     (OrganizeShows.a_dest a)
                                     (OrganizeShows.a_dry_run a) st with
        | (st', Ok _) => (st', Ok 0)
        | (st', Raise e) =>
            if is_ValueError e then (add st' [MainError e], Ok 1)
            else (st', Raise e)
        end
    end.
Proof.
  unfold OrganizeShows.main, bind, try_except_ValueError, lift, print, ret, add.
  destruct (OrganizeShows.init _) as [self|e].
  - destruct (OrganizeShows.organize _ _ _ _ _ _) as [st' [b|e]]; [reflexivity|].
    destruct (is_ValueError e); reflexivity.
  - destruct (is_ValueError e); reflexivity.
Qed.

(** An unknown show key ends the program with status 1 before anything
    is read or written. *)
Lemma unknown_show_exits_one (a : OrganizeShows.args) (st : state World) :
  OrganizeShows.lookup (lower (OrganizeShows.a_show a)) OrganizeShows.SHOWS = None ->
  exists msg,
    OrganizeShows.exit_status script_dir a st
    = (add st [MainError (ValueError msg)], 1).
Proof.
  intros H. unfold OrganizeShows.exit_status. rewrite shows_main_cases.
  unfold OrganizeShows.init. rewrite H. simpl. eexists. reflexivity.
Qed.

(** A pass that came to its end gives status 0, whatever was skipped. *)
Lemma completed_pass_exits_zero (a : OrganizeShows.args) (st st' : state World)
      self b :
  OrganizeShows.init (lower (OrganizeShows.a_show a)) = Ok self ->
  OrganizeShows.organize script_dir self (OrganizeShows.a_source a)
                         (OrganizeShows.a_dest a) (OrganizeShows.a_dry_run a) st
  = (st', Ok b) ->
  OrganizeShows.exit_status script_dir a st = (st', 0).
Proof.
  intros Hi Ho. unfold OrganizeShows.exit_status.
  rewrite shows_main_cases, Hi, Ho. reflexivity.
Qed.

End Exit.

(** C4, where the code departs from it.  With a registered show key and a
    source directory that does not exist, [organize] prints the error and
    returns [False]; [main] drops that value and the program ends with
    status 0, not with a failure status. *)
Theorem missing_source_exits_zero
        (World : Type) (os : OS World) (script_dir : path)
        (a : OrganizeShows.args) (st : state World)
        (self : OrganizeShows.ShowOrganizer) :
  OrganizeShows.init (lower (OrganizeShows.a_show a)) = Ok self ->
  path_exists (source_of script_dir (OrganizeShows.a_source a)) (world st)
  = false ->
  OrganizeShows.organize script_dir self (OrganizeShows.a_source a)
                         (OrganizeShows.a_dest a) (OrganizeShows.a_dry_run a) st
  = (add st
       (preamble script_dir self (OrganizeShows.a_source a)
                        (OrganizeShows.a_dest a) (OrganizeShows.a_dry_run a)
        ++ [ErrorNoSource (source_of script_dir (OrganizeShows.a_source a))]),
     Ok false)
  /\ snd (OrganizeShows.exit_status script_dir a st) = 0.
Proof.
  intros Hi He.
  assert (O : OrganizeShows.organize script_dir self (OrganizeShows.a_source a)
                (OrganizeShows.a_dest a) (OrganizeShows.a_dry_run a) st
              = (add st
                   (preamble script_dir self (OrganizeShows.a_source a)
                      (OrganizeShows.a_dest a) (OrganizeShows.a_dry_run a)
                    ++ [ErrorNoSource
                          (source_of script_dir (OrganizeShows.a_source a))]),
                 Ok false)).
  { rewrite Driver.organize_cases. cbv zeta. rewrite He. simpl negb. cbv iota.
    rewrite Driver.add_add. reflexivity. }
  split; [exact O|].
  rewrite (completed_pass_exits_zero script_dir a st _ self false Hi O). reflexivity.
Qed.

Lemma missing_source_exits_zero_witness :
  snd (OrganizeShows.exit_status
         Toy.home (OrganizeShows.MkArgs "Fringe" ["FringeS04"] None false)
         (boot Toy.nowhere)) = 0.
Proof.
  exact (proj2 (missing_source_exits_zero
                  Toy.toy Toy.toy_os Toy.home
                  (OrganizeShows.MkArgs "Fringe" ["FringeS04"] None false)
                  (boot Toy.nowhere) Samples.fringe eq_refl eq_refl)).
Defined.

(** The other configuration error does end with status 1. *)
Example unknown_show_status :
  OrganizeShows.exit_status
    Toy.home (OrganizeShows.MkArgs "lost" ["FringeS04"] None false)
    (boot Toy.season4_world)
  = (MkState Toy.season4_world
       [MainError (ValueError
          "Unknown show: lost. Available: ['fringe', 'battlestar']")],
     1).
Proof. vm_compute. reflexivity. Qed.

(** A pass with a skipped file ends with status 0. *)
Example skipped_file_status :
  snd (OrganizeShows.exit_status
         Toy.home (OrganizeShows.MkArgs "fringe" ["FringeS04"] None false)
         (boot Toy.season4_unreadable)) = 0.
Proof. vm_compute. reflexivity. Qed.

(** An exception that is not a [ValueError] leaves [main]. *)
Example blocked_status :
  snd (OrganizeShows.exit_status
         Toy.home (OrganizeShows.MkArgs "fringe" ["FringeS04"] None false)
         (boot Toy.season4_blocked)) = 1.
Proof. vm_compute. reflexivity. Qed.

(** *** The layout of the destination *)

(** C2.  For every season, episode, title and extension the destination
    below the show directory is
    "Season {season}/{show_name} - S{season}E{episode}{ - title}{extension}",
    the title part with its separator being left out when there is no
    title to print.  The file "Fringe S04E01 Episode Title (1080p).mp4"
    under the fringe profile is copied to
    "Fringe/Season 04/Fringe - S04E01 - Episode Title.mp4" below the
    destination parent. *)
Theorem layout_path :
  (forall (self : OrganizeShows.ShowOrganizer) (season episode : string)
          (title : option string) (extension : string),
      OrganizeShows.destination_rel self season episode title extension
      = "Season " +++ season +++ "/"
        +++ OrganizeShows.name (OrganizeShows.show_cfg self)
        +++ " - S" +++ season +++ "E" +++ episode
        +++ title_segment title +++ extension)
  /\ (exists rel,
         Toy.calls
           (world (fst (OrganizeShows.organize
                          Toy.home Samples.fringe ["FringeS04"]
                          (Some ["/"; "srv"; "Shows"]) false
                          (boot (Toy.healthy
                                   ["Fringe S04E01 Episode Title (1080p).mp4"])))))
         = [Toy.Mkdir ["/"; "srv"; "Shows"; "Fringe"; "Season 04"];
            Toy.Copy (Toy.home ++ ["FringeS04";
                                   "Fringe S04E01 Episode Title (1080p).mp4"])
                     (["/"; "srv"; "Shows"] ++ rel)]
         /\ render rel = "Fringe/Season 04/Fringe - S04E01 - Episode Title.mp4").
Proof.
  split.
  - intros self season episode title extension.
    unfold OrganizeShows.destination_rel, OrganizeShows.create_jellyfin_filename,
      title_segment.
    destruct title as [[|a t]|]; reflexivity.
  - exists ["Fringe"; "Season 04"; "Fringe - S04E01 - Episode Title.mp4"].
    split; vm_compute; reflexivity.
Qed.

(** The other examples of the specification. *)
Example battlestar_destination :
  stdout (fst (OrganizeShows.organize
                 Toy.home Samples.battlestar ["BSG"] None true
                 (boot (Toy.healthy ["BSG S01E01 33 (720p).mkv"]))))
  = [DryRunBanner;
     Header (Some "Battlestar Galactica") (Toy.home ++ ["BSG"])
            (Toy.home ++ ["Media"; "Shows"; "Battlestar Galactica"]);
     Found 1;
     Copying true "BSG S01E01 33 (720p).mkv";
     To "Season 01/Battlestar Galactica - S01E01 - 33.mkv";
     Done true;
     Summary true 1 0 (Toy.home ++ ["Media"; "Shows"; "Battlestar Galactica"])].
Proof. vm_compute. reflexivity. Qed.

Example random_video_skipped :
  OrganizeShows.organize Toy.home Samples.fringe ["FringeS04"] None false
                         (boot (Toy.healthy ["random_video.mp4"]))
  = (MkState (Toy.healthy ["random_video.mp4"])
       [Header (Some "Fringe") (Toy.home ++ ["FringeS04"])
               (Toy.home ++ ["Media"; "Shows"; "Fringe"]);
        Found 1;
        Skipping "random_video.mp4";
        Summary false 0 1 (Toy.home ++ ["Media"; "Shows"; "Fringe"])],
     Ok true).
Proof. vm_compute. reflexivity. Qed.

(** A title of white space only is trimmed to the empty string and is not
    printed. *)
Example blank_title :
  OrganizeShows.parse_episode_info Samples.fringe "Fringe S04E01    (1080p).mp4"
  = Ok (Some "04", Some "01", Some "")
  /\ OrganizeShows.destination_rel Samples.fringe "04" "01" (Some "") ".mp4"
     = "Season 04/Fringe - S04E01.mp4".
Proof. split; vm_compute; reflexivity. Qed.

(** *** The scan of the source directory *)

Lemma str_in_In x l : str_in x l = true <-> In x l.
Proof.
  unfold str_in. rewrite existsb_exists. split.
  - intros (y & Hy & E). apply String.eqb_eq in E. subst. exact Hy.
  - intros H. exists x. split; [exact H|apply String.eqb_refl].
Qed.

Lemma shows_selected_iff (e : dirent) :
  OrganizeShows.selected e = true
  <-> d_is_file e = true
      /\ In (lower (suffix (d_name e))) [".m4v"; ".mp4"; ".mkv"; ".avi"; ".ts"]
      /\ endswith (d_name e) ".part" = false.
Proof.
  unfold OrganizeShows.selected, OrganizeShows.video_extensions.
  rewrite <- str_in_In.
  destruct (d_is_file e); destruct (endswith (d_name e) ".part");
    intuition congruence.
Qed.

(** What the older script selects: the suffix as it is written, and four
    extensions. *)
Lemma fringe_selected_iff (e : dirent) :
  OrganizeFringe.selected e = true
  <-> d_is_file e = true
      /\ In (suffix (d_name e)) [".m4v"; ".mp4"; ".mkv"; ".avi"]
      /\ endswith (d_name e) ".part" = false.
Proof.
  unfold OrganizeFringe.selected, OrganizeFringe.video_extensions.
  rewrite <- str_in_In.
  destruct (d_is_file e); destruct (endswith (d_name e) ".part");
    intuition congruence.
Qed.

(** C5.  The scan of organize_shows.py selects an entry exactly when it
    is a regular file whose lower-cased extension is one of .m4v, .mp4,
    .mkv, .avi, .ts and whose name does not end in .part.  The scan of
    organize_fringe.py does not: it compares the extension as written and
    does not know .ts, so it passes over "Fringe S04E01 Pilot (1080p).MP4"
    and "Fringe S04E01 Pilot (1080p).ts", which the other script takes. *)
Theorem scan_selection :
  (forall e : dirent,
      OrganizeShows.selected e = true
      <-> d_is_file e = true
          /\ In (lower (suffix (d_name e))) [".m4v"; ".mp4"; ".mkv"; ".avi"; ".ts"]
          /\ endswith (d_name e) ".part" = false)
  /\ OrganizeShows.selected (Toy.file "Fringe S04E01 Pilot (1080p).MP4") = true
  /\ OrganizeFringe.selected (Toy.file "Fringe S04E01 Pilot (1080p).MP4") = false
  /\ OrganizeShows.selected (Toy.file "Fringe S04E01 Pilot (1080p).ts") = true
  /\ OrganizeFringe.selected (Toy.file "Fringe S04E01 Pilot (1080p).ts") = false.
Proof.
  split; [exact shows_selected_iff|].
  repeat split; vm_compute; reflexivity.
Qed.

Lemma scan_selection_witness :
  In (lower (suffix "Fringe S04E01 Pilot (1080p).MP4"))
     [".m4v"; ".mp4"; ".mkv"; ".avi"; ".ts"].
Proof.
  exact (proj1 (proj2 (proj1 (proj1 scan_selection
                                (Toy.file "Fringe S04E01 Pilot (1080p).MP4"))
                             eq_refl))).
Defined.

(** A partial download is never selected, whatever precedes the marker. *)
Example partial_download :
  OrganizeShows.selected (Toy.file "Fringe S04E03 Alone (1080p).mp4.part") = false
  /\ OrganizeShows.selected (MkEntry "extras.mkv" false) = false
  /\ OrganizeShows.selected (Toy.file ".mp4") = false.
Proof. repeat split; vm_compute; reflexivity. Qed.

End Run.

(* ------------------------------------------------------------------ *)
(** * Further properties: strings, names and their order *)

Module StrFacts.

Import PyStr Notions.

(** *** Trimming *)

Lemma lstrip_fixed l :
  match l with [] => True | c :: _ => is_space c = false end ->
  lstrip_chars l = l.
Proof. destruct l as [|c t]; simpl; [reflexivity|]. intros ->. reflexivity. Qed.

Lemma lstrip_head l :
  match lstrip_chars l with [] => True | c :: _ => is_space c = false end.
Proof.
  induction l as [|c t IH]; simpl; [exact I|].
  destruct (is_space c) eqn:E; [exact IH|exact E].
Qed.

Lemma lstrip_idem l : lstrip_chars (lstrip_chars l) = lstrip_chars l.
Proof. apply lstrip_fixed, lstrip_head. Qed.

Lemma lstrip_snoc a c :
  is_space c = false -> lstrip_chars (a ++ [c]) = lstrip_chars a ++ [c].
Proof.
  intros Hc. induction a as [|x a IH]; simpl.
  - rewrite Hc. reflexivity.
  - destruct (is_space x); [exact IH|reflexivity].
Qed.

Lemma rstrip_idem l : rstrip_chars (rstrip_chars l) = rstrip_chars l.
Proof. unfold rstrip_chars. rewrite rev_involutive, lstrip_idem. reflexivity. Qed.

(** Trimming on the right leaves a first character that is no white space
    where it is. *)
Lemma rstrip_keeps_head c t :
  is_space c = false ->
  rstrip_chars (c :: t) = c :: rev (lstrip_chars (rev t)).
Proof.
  intros Hc. unfold rstrip_chars. simpl rev.
  rewrite (lstrip_snoc _ _ Hc), rev_app_distr. reflexivity.
Qed.

Lemma rstrip_of_lstrip_head l :
  match rstrip_chars (lstrip_chars l) with
  | [] => True
  | c :: _ => is_space c = false
  end.
Proof.
  pose proof (lstrip_head l) as H.
  destruct (lstrip_chars l) as [|c t]; [exact I|].
  rewrite (rstrip_keeps_head _ _ H). exact H.
Qed.

Lemma rstrip_last l :
  match rstrip_chars l with
  | [] => True
  | c :: t => is_space (last t c) = false
  end.
Proof.
  unfold rstrip_chars. pose proof (lstrip_head (rev l)) as H.
  destruct (lstrip_chars (rev l)) as [|d u]; [exact I|].
  simpl rev. destruct (rev u ++ [d]) as [|c t] eqn:E.
  - destruct (rev u); discriminate.
  - assert (L : last (c :: t) c = d) by (rewrite <- E; apply last_last).
    destruct t as [|x t]; simpl in *; congruence.
Qed.

Lemma strip_chars (x : string) :
  list_ascii_of_string (strip x)
  = rstrip_chars (lstrip_chars (list_ascii_of_string x)).
Proof. unfold strip. apply list_ascii_of_string_of_list_ascii. Qed.

(** Trimming twice is trimming once. *)
Lemma strip_idem (x : string) : strip (strip x) = strip x.
Proof.
  unfold strip at 1. rewrite strip_chars.
  rewrite (lstrip_fixed _ (rstrip_of_lstrip_head _)), rstrip_idem.
  reflexivity.
Qed.

(** A trimmed string neither begins nor ends with white space. *)
Lemma strip_edges (x : string) : edge_space (strip x) = false.
Proof.
  unfold edge_space. rewrite strip_chars.
  pose proof (rstrip_of_lstrip_head (list_ascii_of_string x)) as H.
  pose proof (rstrip_last (lstrip_chars (list_ascii_of_string x))) as L.
  destruct (rstrip_chars (lstrip_chars (list_ascii_of_string x))) as [|c t];
    [reflexivity|].
  rewrite H, L. reflexivity.
Qed.

(** *** The suffix of a name *)

Lemma find_char_first c a b :
  ~ In c a -> find_char c (a ++ c :: b) = Some (List.length a).
Proof.
  induction a as [|x a IH]; simpl; intros H.
  - rewrite Ascii.eqb_refl. reflexivity.
  - assert (E : Ascii.eqb x c = false) by (apply Ascii.eqb_neq; intuition).
    rewrite E, IH by intuition. reflexivity.
Qed.

Lemma find_char_split c l k :
  find_char c l = Some k ->
  exists a b, l = a ++ c :: b /\ List.length a = k /\ ~ In c a.
Proof.
  revert k. induction l as [|x l IH]; simpl; intros k H; [discriminate|].
  destruct (Ascii.eqb x c) eqn:E.
  - apply Ascii.eqb_eq in E. subst x. injection H as <-.
    exists [], l. simpl. intuition.
  - destruct (find_char c l) as [k0|]; [|discriminate].
    injection H as <-. destruct (IH k0 eq_refl) as (a & b & -> & L & N).
    exists (x :: a), b. simpl. split; [reflexivity|]. split; [congruence|].
    apply Ascii.eqb_neq in E. intuition.
Qed.

Lemma chars_of_append (x y : string) :
  list_ascii_of_string (x +++ y) = list_ascii_of_string x ++ list_ascii_of_string y.
Proof. induction x as [|c x IH]; simpl; [reflexivity|]. rewrite IH. reflexivity. Qed.

Lemma length_of_chars (x : string) :
  String.length x = List.length (list_ascii_of_string x).
Proof. induction x as [|c x IH]; simpl; auto. Qed.

(** The suffix of a name that ends in a dot followed by a non-empty run
    without dots, after a non-empty stem. *)
Lemma suffix_of_stem_ext (pre rest : list ascii) :
  pre <> [] -> rest <> [] -> ~ In "."%char rest ->
  suffix (string_of_list_ascii (pre ++ "."%char :: rest))
  = string_of_list_ascii ("."%char :: rest).
Proof.
  intros Hp Hr Hn. unfold suffix, rfind.
  rewrite length_of_chars, list_ascii_of_string_of_list_ascii.
  assert (R : rev (pre ++ "."%char :: rest) = rev rest ++ "."%char :: rev pre).
  { rewrite rev_app_distr. simpl. rewrite <- app_assoc. reflexivity. }
  rewrite R, find_char_first by (rewrite <- in_rev; exact Hn).
  rewrite length_rev, length_app. simpl List.length.
  replace (List.length pre + S (List.length rest) - 1 - List.length rest)
    with (List.length pre) by lia.
  assert (0 < List.length pre) by (destruct pre; simpl; [congruence|lia]).
  assert (0 < List.length rest) by (destruct rest; simpl; [congruence|lia]).
  assert (C : (0 <? List.length pre)
              && (List.length pre + 1 <? List.length pre + S (List.length rest))
              = true).
  { apply andb_true_intro. split; apply Nat.ltb_lt; lia. }
  rewrite C. f_equal.
  rewrite skipn_app, skipn_all, Nat.sub_diag. reflexivity.
Qed.

(** A non-empty suffix is a dot followed by a non-empty run without
    dots. *)
Lemma suffix_shape (name : string) :
  suffix name <> "" ->
  exists rest,
    suffix name = string_of_list_ascii ("."%char :: rest)
    /\ rest <> [] /\ ~ In "."%char rest.
Proof.
  unfold suffix, rfind. rewrite length_of_chars.
  set (l := list_ascii_of_string name).
  destruct (find_char "."%char (rev l)) as [k|] eqn:F; [|congruence].
  destruct (find_char_split _ _ _ F) as (a & b & E & L & N).
  assert (El : l = rev b ++ "."%char :: rev a).
  { rewrite <- (rev_involutive l), E, rev_app_distr. simpl.
    rewrite <- app_assoc. reflexivity. }
  assert (Len : List.length l = List.length b + S (List.length a)).
  { rewrite El, length_app. simpl. rewrite !length_rev. reflexivity. }
  destruct ((0 <? List.length l - 1 - k)
            && (List.length l - 1 - k + 1 <? List.length l)) eqn:C; [|congruence].
  intros _. apply andb_prop in C. destruct C as [C1 C2].
  apply Nat.ltb_lt in C1. apply Nat.ltb_lt in C2.
  exists (rev a). split.
  - f_equal. replace (List.length l - 1 - k) with (List.length (rev b))
      by (rewrite length_rev; lia).
    rewrite El, skipn_app, skipn_all, Nat.sub_diag. reflexivity.
  - split.
    + destruct a; simpl in *; [lia|]. intros Z. apply app_eq_nil in Z.
      destruct Z; discriminate.
    + rewrite <- in_rev. exact N.
Qed.

(** Appending the suffix of one name to a non-empty stem gives a name with
    that suffix. *)
Lemma suffix_append (stem name : string) :
  stem <> "" -> suffix name <> "" -> suffix (stem +++ suffix name) = suffix name.
Proof.
  intros Hs Hx. destruct (suffix_shape name Hx) as (rest & E & Hr & Hn).
  rewrite E.
  rewrite <- (string_of_list_ascii_of_string (stem +++ _)).
  rewrite chars_of_append, list_ascii_of_string_of_list_ascii.
  apply suffix_of_stem_ext; auto.
  destruct stem; simpl; congruence.
Qed.

Lemma append_assoc (x y z : string) : (x +++ y) +++ z = x +++ y +++ z.
Proof. induction x as [|c x IH]; simpl; [reflexivity|]. rewrite IH. reflexivity. Qed.

Lemma append_nonempty_r (x y : string) : y <> "" -> x +++ y <> "".
Proof. destruct x; simpl; [auto|discriminate]. Qed.

(** *** The order of names *)

Lemma ascii_compare_lt_trans a b c :
  Ascii.compare a b = Lt -> Ascii.compare b c = Lt -> Ascii.compare a c = Lt.
Proof.
  unfold Ascii.compare. rewrite !N.compare_lt_iff. apply N.lt_trans.
Qed.

Lemma compare_lt_trans x :
  forall y z, String.compare x y = Lt -> String.compare y z = Lt ->
              String.compare x z = Lt.
Proof.
  induction x as [|a x IH]; intros [|b y] [|c z]; simpl; try congruence.
  destruct (Ascii.compare a b) eqn:Eab; try discriminate;
    destruct (Ascii.compare b c) eqn:Ebc; try discriminate; intros H1 H2.
  - apply Ascii.compare_eq_iff in Eab, Ebc. subst.
    assert (R : Ascii.compare c c = Eq) by (unfold Ascii.compare; apply N.compare_refl).
    rewrite R. eapply IH; eauto.
  - apply Ascii.compare_eq_iff in Eab. subst. rewrite Ebc. reflexivity.
  - apply Ascii.compare_eq_iff in Ebc. subst. rewrite Eab. reflexivity.
  - rewrite (ascii_compare_lt_trans _ _ _ Eab Ebc). reflexivity.
Qed.

Lemma name_le_trans x y z : name_le x y -> name_le y z -> name_le x z.
Proof.
  unfold name_le, String.leb. intros H1 H2.
  destruct (String.compare x y) eqn:Exy; try discriminate.
  - apply String.compare_eq_iff in Exy. subst. exact H2.
  - destruct (String.compare y z) eqn:Eyz; try discriminate.
    + apply String.compare_eq_iff in Eyz. subst. rewrite Exy. reflexivity.
    + rewrite (compare_lt_trans _ _ _ Exy Eyz). reflexivity.
Qed.

Lemma ltb_le x y : String.ltb x y = true -> name_le x y.
Proof. unfold name_le, String.ltb, String.leb. destruct (String.compare x y); congruence. Qed.

Lemma not_ltb_le x y : String.ltb x y = false -> name_le y x.
Proof.
  unfold name_le, String.ltb, String.leb. rewrite (String.compare_antisym y x).
  destruct (String.compare x y); simpl; congruence.
Qed.

Lemma insert_sorted_perm x l : Permutation (insert_sorted x l) (x :: l).
Proof.
  induction l as [|y l IH]; simpl; [apply Permutation_refl|].
  destruct (String.ltb x y); [apply Permutation_refl|].
  apply perm_trans with (y :: x :: l); [apply perm_skip, IH|apply perm_swap].
Qed.

Lemma insert_sorted_sorted x l :
  StronglySorted name_le l -> StronglySorted name_le (insert_sorted x l).
Proof.
  induction 1 as [|y l S IH F]; simpl.
  - constructor; constructor.
  - destruct (String.ltb x y) eqn:E.
    + constructor; [constructor; assumption|].
      constructor; [apply ltb_le, E|].
      eapply Forall_impl; [|exact F]. intros z Hz.
      eapply name_le_trans; [apply ltb_le, E|exact Hz].
    + constructor; [exact IH|].
      apply (Permutation_Forall (Permutation_sym (insert_sorted_perm x l))).
      constructor; [apply not_ltb_le, E|exact F].
Qed.

Lemma sorted_perm l : Permutation (sorted l) l.
Proof.
  unfold sorted. apply perm_trans with (rev l); [|apply Permutation_sym, Permutation_rev].
  induction (rev l) as [|x r IH]; simpl; [apply Permutation_refl|].
  apply perm_trans with (x :: fold_right insert_sorted [] r);
    [apply insert_sorted_perm|apply perm_skip, IH].
Qed.

Lemma sorted_sorted l : StronglySorted name_le (sorted l).
Proof.
  unfold sorted. induction (rev l) as [|x r IH]; simpl; [constructor|].
  apply insert_sorted_sorted, IH.
Qed.

(** Two ordered lists with the same elements are the same list. *)
Lemma sorted_unique l1 :
  forall l2,
    StronglySorted name_le l1 -> StronglySorted name_le l2 ->
    Permutation l1 l2 -> l1 = l2.
Proof.
  induction l1 as [|x l1 IH]; intros l2 S1 S2 P.
  - apply Permutation_nil in P. congruence.
  - destruct l2 as [|y l2];
      [apply Permutation_sym, Permutation_nil in P; discriminate|].
    inversion S1 as [|? ? S1' F1]; subst. inversion S2 as [|? ? S2' F2]; subst.
    assert (E : x = y).
    { assert (I1 : In x (y :: l2))
        by (apply (Permutation_in _ P); left; reflexivity).
      assert (I2 : In y (x :: l1))
        by (apply (Permutation_in _ (Permutation_sym P)); left; reflexivity).
      destruct I1 as [-> | I1]; [reflexivity|].
      destruct I2 as [-> | I2]; [reflexivity|].
      apply String.leb_antisym.
      - rewrite Forall_forall in F1. apply F1, I2.
      - rewrite Forall_forall in F2. apply F2, I1. }
    subst y. f_equal. apply IH; auto.
    apply Permutation_cons_inv with x. exact P.
Qed.

Lemma filter_perm {A : Type} (f : A -> bool) (l l' : list A) :
  Permutation l l' -> Permutation (filter f l) (filter f l').
Proof.
  induction 1 as [| x l l' P IH | x y l | l l' l'' P1 IH1 P2 IH2]; simpl.
  - constructor.
  - destruct (f x); [apply perm_skip|]; exact IH.
  - destruct (f x), (f y); try apply Permutation_refl. apply perm_swap.
  - eapply perm_trans; eauto.
Qed.

End StrFacts.

(* ------------------------------------------------------------------ *)
(** * Further properties of the matchers *)

Module MoreMatcher.

Import PyStr Re Py Notions ReFacts StrFacts.

Lemma extract_title mo season episode t :
  OrganizeShows.extract mo = Ok (season, episode, Some t) ->
  exists x, t = strip x.
Proof.
  unfold OrganizeShows.extract.
  destruct (group mo 1) as [g1|e]; [|discriminate]. cbn [rbind].
  destruct (group mo 2) as [g2|e]; [|discriminate]. cbn [rbind].
  destruct (3 <=? List.length (groups mo)); [|discriminate].
  destruct (group mo 3) as [[x|]|e]; try discriminate.
  cbn [rbind strip_method]. intros H. injection H as _ _ <-. exists x. reflexivity.
Qed.

Lemma parse_with_title pats filename season episode t :
  OrganizeShows.parse_with pats filename = Ok (season, episode, Some t) ->
  exists x, t = strip x.
Proof.
  induction pats as [|p pats IH]; simpl; [discriminate|].
  destruct (search true p filename) as [mo|]; [apply extract_title|exact IH].
Qed.

(** Every title the matchers return is trimmed: trimming it again changes
    nothing, and it neither begins nor ends with white space.  This holds
    for every profile of organize_shows.py and for [get_episode_title] of
    organize_fringe.py. *)
Theorem titles_are_trimmed :
  (forall (self : OrganizeShows.ShowOrganizer) (filename : string)
          (season episode : option string) (t : string),
      OrganizeShows.parse_episode_info self filename = Ok (season, episode, Some t) ->
      strip t = t /\ edge_space t = false)
  /\ (forall (filename t : string),
         OrganizeFringe.get_episode_title filename = Ok (Some t) ->
         strip t = t /\ edge_space t = false).
Proof.
  split.
  - intros self filename season episode t H.
    apply parse_with_title in H. destruct H as (x & ->).
    split; [apply strip_idem|apply strip_edges].
  - intros filename t. unfold OrganizeFringe.get_episode_title.
    destruct (search false OrganizeFringe.title_pattern filename) as [mo|];
      [|discriminate].
    destruct (group mo 1) as [[x|]|e]; try discriminate.
    cbn [rbind strip_method]. intros H. injection H as <-.
    split; [apply strip_idem|apply strip_edges].
Qed.

(** A title captured with white space around it comes back without. *)
Lemma titles_are_trimmed_witness :
  strip "Title" = "Title" /\ edge_space "Title" = false.
Proof.
  refine (proj1 titles_are_trimmed Samples.optional_title "S01E02  Title  "
                (Some "01") (Some "02") "Title" _).
  vm_compute. reflexivity.
Defined.

(** The matcher of organize_fringe.py never raises.  [parse_episode_info]
    returns either nothing or a season and an episode of exactly two
    digits each; [get_episode_title] returns either nothing or a title. *)
Theorem fringe_matcher_results (filename : string) :
  (OrganizeFringe.parse_episode_info filename = Ok (None, None)
   \/ exists season episode,
        OrganizeFringe.parse_episode_info filename = Ok (Some season, Some episode)
        /\ two_digits season = true /\ two_digits episode = true)
  /\ (OrganizeFringe.get_episode_title filename = Ok None
      \/ exists t, OrganizeFringe.get_episode_title filename = Ok (Some t)).
Proof.
  split.
  - unfold OrganizeFringe.parse_episode_info.
    destruct (search false OrganizeFringe.episode_pattern filename) as [mo|] eqn:S;
      [right|left; reflexivity].
    destruct (search_shape _ _ _ _ S) as [_ L].
    change (ngroups OrganizeFringe.episode_pattern) with 2 in L.
    assert (S1 := S). assert (S2 := S).
    change OrganizeFringe.episode_pattern
      with (seq (lits "Fringe S" ++ Grp (Times 2 Digit)
                      :: [Lit "E"; Grp (Times 2 Digit)])) in S1.
    change OrganizeFringe.episode_pattern
      with (seq ((lits "Fringe S" ++ [Grp (Times 2 Digit); Lit "E"])
                   ++ Grp (Times 2 Digit) :: [])) in S2.
    apply Matcher.two_digit_group in S1. apply Matcher.two_digit_group in S2.
    change (ngroups (seq (lits "Fringe S"))) with 0 in S1.
    change (ngroups (seq (lits "Fringe S" ++ [Grp (Times 2 Digit); Lit "E"])))
      with 1 in S2.
    destruct S1 as (season & Hs & Ds). destruct S2 as (episode & He & De).
    exists season, episode.
    rewrite !Matcher.group_in_range by lia. cbn [rbind]. rewrite Hs, He. auto.
  - unfold OrganizeFringe.get_episode_title.
    destruct (search false OrganizeFringe.title_pattern filename) as [mo|] eqn:S;
      [right|left; reflexivity].
    destruct (search_shape _ _ _ _ S) as [_ L].
    change (ngroups OrganizeFringe.title_pattern) with 1 in L.
    change OrganizeFringe.title_pattern
      with (seq ((lits "Fringe S" ++ [Times 2 Digit; Lit "E"; Times 2 Digit; Plus Space])
                   ++ Grp (PlusLazy AnyChar)
                   :: [Plus Space; Lit "("; StarLazy AnyChar; Lit ")"])) in S.
    apply Matcher.top_level_group_present in S.
    change (ngroups (seq (lits "Fringe S"
                            ++ [Times 2 Digit; Lit "E"; Times 2 Digit; Plus Space])))
      with 0 in S.
    destruct S as (x & Hx).
    rewrite Matcher.group_in_range by lia. rewrite Hx.
    exists (strip x). reflexivity.
Qed.

(** When the first matching pattern of a profile defines fewer than two
    groups, [parse_episode_info] raises [IndexError]; when it defines three
    or more and the third took no part in the match, it raises
    [AttributeError]. *)
Theorem matcher_exceptions
        (self : OrganizeShows.ShowOrganizer) (filename : string)
        (pre post : list regex) (p : regex) (mo : match_obj) :
  OrganizeShows.patterns (OrganizeShows.show_cfg self) = pre ++ p :: post ->
  (forall q, In q pre -> search true q filename = None) ->
  search true p filename = Some mo ->
  (ngroups p < 2 ->
   OrganizeShows.parse_episode_info self filename
   = Raise (IndexError "no such group"))
  /\ (3 <= ngroups p -> nth 2 (groups mo) None = None ->
      OrganizeShows.parse_episode_info self filename
      = Raise (AttributeError "'NoneType' object has no attribute 'strip'")).
Proof.
  intros Hpats Hpre Hp.
  unfold OrganizeShows.parse_episode_info. rewrite Hpats.
  rewrite (Matcher.parse_with_first _ _ _ _ _ Hpre Hp).
  destruct (search_shape _ _ _ _ Hp) as [_ L].
  unfold OrganizeShows.extract. split.
  - intros H2. destruct (ngroups p) as [|[|n]] eqn:N; [| |lia].
    + rewrite Matcher.group_out_of_range by lia. reflexivity.
    + rewrite (Matcher.group_in_range mo 0) by lia. cbn [rbind].
      rewrite Matcher.group_out_of_range by lia. reflexivity.
  - intros H3 Hn. rewrite !Matcher.group_in_range by lia. cbn [rbind].
    rewrite Matcher.groups_length, L.
    assert (T : (3 <=? ngroups p) = true) by (apply Nat.leb_le; exact H3).
    rewrite T, Hn. reflexivity.
Qed.

Lemma matcher_exceptions_witness :
  OrganizeShows.parse_episode_info one_group "Fringe E05.mkv"
  = Raise (IndexError "no such group").
Proof.
  refine (proj1 (matcher_exceptions
                   one_group "Fringe E05.mkv" [] []
                   (seq [Lit "E"; Grp (Times 2 Digit)])
                   (MkMatch (list_ascii_of_string "Fringe E05.mkv") 7 10 [Some (8, 10)])
                   eq_refl _ _) _).
  - intros q [].
  - vm_compute. reflexivity.
  - vm_compute. lia.
Defined.

End MoreMatcher.

(* ------------------------------------------------------------------ *)
(** * Further properties of the runs *)

Module MoreRun.

Import PyStr Re Py Report Notions StrFacts Run.

(** *** Show keys and exit status *)

(** [ShowOrganizer.__init__] accepts exactly the keys [fringe] and
    [battlestar], written in lower case, and gives the profile registered
    under the key; for every other key it raises [ValueError] with a
    message that names the key and lists the two registered ones. *)
Theorem init_keys (key : string) :
  (key = "fringe" -> OrganizeShows.init key = Ok Samples.fringe)
  /\ (key = "battlestar" -> OrganizeShows.init key = Ok Samples.battlestar)
  /\ (key <> "fringe" -> key <> "battlestar" ->
      OrganizeShows.init key
      = Raise (ValueError ("Unknown show: " +++ key
                           +++ ". Available: ['fringe', 'battlestar']"))).
Proof.
  split; [intros ->; reflexivity|]. split; [intros ->; reflexivity|].
  intros H1 H2. unfold OrganizeShows.init. simpl.
  apply String.eqb_neq in H1. apply String.eqb_neq in H2.
  rewrite H1, H2. reflexivity.
Qed.

(** The constructor itself does not fold case. *)
Lemma init_keys_witness :
  OrganizeShows.init "Fringe"
  = Raise (ValueError "Unknown show: Fringe. Available: ['fringe', 'battlestar']").
Proof.
  refine (proj2 (proj2 (init_keys "Fringe")) _ _); discriminate.
Defined.

(** With a show key that is, once lower-cased, neither [fringe] nor
    [battlestar], the program prints the error of the constructor and ends
    with status 1; it does not look at the source directory and leaves
    the world as it is. *)
Theorem unknown_key_aborts
        (World : Type) (os : OS World) (script_dir : path)
        (a : OrganizeShows.args) (st : state World) :
  lower (OrganizeShows.a_show a) <> "fringe" ->
  lower (OrganizeShows.a_show a) <> "battlestar" ->
  OrganizeShows.exit_status script_dir a st
  = (add st [MainError
               (ValueError ("Unknown show: " +++ lower (OrganizeShows.a_show a)
                            +++ ". Available: ['fringe', 'battlestar']"))],
     1).
Proof.
  intros H1 H2. unfold OrganizeShows.exit_status.
  rewrite Run.shows_main_cases.
  unfold OrganizeShows.init. simpl OrganizeShows.lookup.
  apply String.eqb_neq in H1. apply String.eqb_neq in H2.
  rewrite H1, H2. reflexivity.
Qed.

Lemma unknown_key_aborts_witness :
  OrganizeShows.exit_status
    Toy.home (OrganizeShows.MkArgs "Lost" ["FringeS04"] None false)
    (boot Toy.season4_world)
  = (MkState Toy.season4_world
       [MainError (ValueError
          "Unknown show: lost. Available: ['fringe', 'battlestar']")],
     1).
Proof.
  refine (unknown_key_aborts Toy.toy Toy.toy_os Toy.home
            (OrganizeShows.MkArgs "Lost" ["FringeS04"] None false)
            (boot Toy.season4_world) _ _); vm_compute; discriminate.
Defined.



(** *** Nothing to do *)

Lemma filter_none {A : Type} (f : A -> bool) (l : list A) :
  (forall x, In x l -> f x = false) -> filter f l = [].
Proof.
  induction l as [|x l IH]; simpl; intros H; [reflexivity|].
  rewrite (H x) by (left; reflexivity). apply IH. intros y Hy. apply H. right. exact Hy.
Qed.

(** When the source directory exists and the scan selects none of its
    entries (an empty directory included), both scripts print that no
    video file was found and stop: nothing is created or copied, no
    summary is printed, and [organize] returns [False]. *)
Theorem nothing_to_do :
  (forall (World : Type) (os : OS World) (script_dir : path)
          (self : OrganizeShows.ShowOrganizer) (source_dir : path)
          (dest_parent : option path) (dry_run : bool)
          (st : state World) (entries : list dirent),
      path_exists (source_of script_dir source_dir) (world st) = true ->
      iterdir (source_of script_dir source_dir) (world st) = Ok entries ->
      (forall e, In e entries -> OrganizeShows.selected e = false) ->
      OrganizeShows.organize script_dir self source_dir dest_parent dry_run st
      = (add st (preamble script_dir self source_dir dest_parent dry_run
                 ++ [NoVideoFiles]),
         Ok false))
  /\ (forall (World : Type) (os : OS World) (script_dir : path)
             (a : OrganizeFringe.args) (st : state World) (entries : list dirent),
         path_exists (fringe_source_of script_dir a) (world st) = true ->
         iterdir (fringe_source_of script_dir a) (world st) = Ok entries ->
         (forall e, In e entries -> OrganizeFringe.selected e = false) ->
         OrganizeFringe.main script_dir a st
         = (add st (fringe_preamble script_dir a ++ [NoVideoFiles]), Ok tt)).
Proof.
  split.
  - intros World os script_dir self source_dir dest_parent dry_run st entries He Hi Hn.
    rewrite Driver.organize_cases. cbv zeta. rewrite He, Hi. simpl negb. cbv iota.
    rewrite (filter_none _ _ Hn). simpl map. cbv iota.
    rewrite Driver.add_add. reflexivity.
  - intros World os script_dir a st entries He Hi Hn.
    rewrite FringeDriver.fringe_main_cases. cbv zeta. rewrite He, Hi.
    simpl negb. cbv iota.
    rewrite (filter_none _ _ Hn). simpl map. cbv iota.
    rewrite Driver.add_add. reflexivity.
Qed.

(** A folder with a text file and a partial download only. *)
Lemma nothing_to_do_witness :
  OrganizeShows.organize
    Toy.home Samples.fringe ["Downloads"] None false
    (boot (Toy.healthy ["notes.txt"; "Fringe S04E03 Alone (1080p).mp4.part"]))
  = (MkState (Toy.healthy ["notes.txt"; "Fringe S04E03 Alone (1080p).mp4.part"])
       [Header (Some "Fringe") (Toy.home ++ ["Downloads"])
               (Toy.home ++ ["Media"; "Shows"; "Fringe"]);
        NoVideoFiles],
     Ok false).
Proof.
  refine (proj1 nothing_to_do Toy.toy Toy.toy_os Toy.home Samples.fringe
                ["Downloads"] None false
                (boot (Toy.healthy ["notes.txt";
                                    "Fringe S04E03 Alone (1080p).mp4.part"]))
                (map Toy.file ["notes.txt"; "Fringe S04E03 Alone (1080p).mp4.part"])
                eq_refl eq_refl _).
  intros e [<-|[<-|[]]]; vm_compute; reflexivity.
Defined.

(** *** The order in which files are processed *)

(** The names selected from two enumerations of the same directory
    content are put in the same order. *)
Lemma sorted_selection (f : dirent -> bool) (entries listing : list dirent) :
  Permutation listing entries ->
  sorted (map d_name (filter f listing)) = sorted (map d_name (filter f entries)).
Proof.
  intros P. apply sorted_unique; try apply sorted_sorted.
  eapply perm_trans; [apply sorted_perm|].
  eapply perm_trans; [|apply Permutation_sym, sorted_perm].
  apply Permutation_map, filter_perm, P.
Qed.

(** When the source directory exists and the scan selects something, a
    run of either script is the run of its loop, started after the
    preamble and the "Found" line, on the selected names in ascending
    order of code points, each as often as it was listed.  The list
    handed to the loop is the same for every order [listing] in which the
    directory enumerates the same content [entries], so the run does not
    depend on the order of enumeration.  (Ascending order of code points
    is how the paths of one directory compare on POSIX.) *)
Theorem processing_order :
  (forall (World : Type) (os : OS World) (script_dir : path)
          (self : OrganizeShows.ShowOrganizer) (source_dir : path)
          (dest_parent : option path) (dry_run : bool)
          (st : state World) (entries listing : list dirent),
      path_exists (source_of script_dir source_dir) (world st) = true ->
      iterdir (source_of script_dir source_dir) (world st) = Ok listing ->
      Permutation listing entries ->
      filter OrganizeShows.selected entries <> [] ->
      Permutation (sorted (map d_name (filter OrganizeShows.selected entries)))
                  (map d_name (filter OrganizeShows.selected listing))
      /\ StronglySorted name_le
                        (sorted (map d_name (filter OrganizeShows.selected entries)))
      /\ OrganizeShows.organize script_dir self source_dir dest_parent dry_run st
         = match OrganizeShows.process
                   self (source_of script_dir source_dir)
                   (dest_base_of script_dir self dest_parent) dry_run
                   (sorted (map d_name (filter OrganizeShows.selected entries)))
                   0 0
                   (add st (preamble script_dir self source_dir dest_parent dry_run
                            ++ [Found (List.length
                                         (filter OrganizeShows.selected listing))]))
           with
           | (st2, Raise e) => (st2, Raise e)
           | (st2, Ok (c, k)) =>
               (add st2 [Summary dry_run c k
                                 (dest_base_of script_dir self dest_parent)],
                Ok true)
           end)
  /\ (forall (World : Type) (os : OS World) (script_dir : path)
             (a : OrganizeFringe.args) (st : state World)
             (entries listing : list dirent),
         path_exists (fringe_source_of script_dir a) (world st) = true ->
         iterdir (fringe_source_of script_dir a) (world st) = Ok listing ->
         Permutation listing entries ->
         filter OrganizeFringe.selected entries <> [] ->
         Permutation (sorted (map d_name (filter OrganizeFringe.selected entries)))
                     (map d_name (filter OrganizeFringe.selected listing))
         /\ StronglySorted name_le
                           (sorted (map d_name
                                        (filter OrganizeFringe.selected entries)))
         /\ OrganizeFringe.main script_dir a st
            = match OrganizeFringe.process
                      script_dir (fringe_source_of script_dir a)
                      (OrganizeFringe.a_dry_run a)
                      (sorted (map d_name (filter OrganizeFringe.selected entries)))
                      0 0
                      (add st (fringe_preamble script_dir a
                               ++ [Found (List.length
                                            (filter OrganizeFringe.selected
                                                    listing))]))
              with
              | (st2, Raise e) => (st2, Raise e)
              | (st2, Ok (c, k)) =>
                  (add st2 [Summary (OrganizeFringe.a_dry_run a) c k
                                    OrganizeFringe.dest_rel],
                   Ok tt)
              end).
Proof.
  split.
  - intros World os script_dir self source_dir dest_parent dry_run st entries
           listing He Hi P Hne.
    split; [|split; [apply sorted_sorted|]].
    { eapply perm_trans; [apply sorted_perm|].
      apply Permutation_map, filter_perm, Permutation_sym, P. }
    rewrite Driver.organize_cases. cbv zeta. rewrite He, Hi.
    simpl negb. cbv iota.
    rewrite (sorted_selection OrganizeShows.selected entries listing P).
    rewrite length_map.
    destruct (filter OrganizeShows.selected listing) as [|e l] eqn:F;
      [|simpl map; cbv iota; rewrite Driver.add_add; reflexivity].
    exfalso. apply Hne.
    apply (filter_perm OrganizeShows.selected) in P. rewrite F in P.
    apply Permutation_nil in P. exact P.
  - intros World os script_dir a st entries listing He Hi P Hne.
    split; [|split; [apply sorted_sorted|]].
    { eapply perm_trans; [apply sorted_perm|].
      apply Permutation_map, filter_perm, Permutation_sym, P. }
    rewrite FringeDriver.fringe_main_cases. cbv zeta. rewrite He, Hi.
    simpl negb. cbv iota.
    rewrite (sorted_selection OrganizeFringe.selected entries listing P).
    rewrite length_map.
    destruct (filter OrganizeFringe.selected listing) as [|e l] eqn:F;
      [|simpl map; cbv iota; rewrite Driver.add_add; reflexivity].
    exfalso. apply Hne.
    apply (filter_perm OrganizeFringe.selected) in P. rewrite F in P.
    apply Permutation_nil in P. exact P.
Qed.

(** The download folder enumerated as it is, and its content given in the
    opposite order: the loop gets the list made from the latter. *)
Lemma processing_order_witness :
  OrganizeShows.organize Toy.home Samples.fringe ["FringeS04"] None false
                         (boot Toy.season4_world)
  = match OrganizeShows.process
            Samples.fringe (Toy.home ++ ["FringeS04"])
            (Toy.home ++ ["Media"; "Shows"; "Fringe"]) false
            (sorted (map d_name (filter OrganizeShows.selected (rev Toy.season4))))
            0 0
            (MkState Toy.season4_world
               [Header (Some "Fringe") (Toy.home ++ ["FringeS04"])
                       (Toy.home ++ ["Media"; "Shows"; "Fringe"]);
                Found 3])
    with
    | (st2, Raise e) => (st2, Raise e)
    | (st2, Ok (c, k)) =>
        (add st2 [Summary false c k (Toy.home ++ ["Media"; "Shows"; "Fringe"])],
         Ok true)
    end.
Proof.
  refine (proj2 (proj2 (proj1 processing_order Toy.toy Toy.toy_os Toy.home
                              Samples.fringe ["FringeS04"] None false
                              (boot Toy.season4_world)
                              (rev Toy.season4) Toy.season4
                              eq_refl eq_refl
                              (Permutation_rev Toy.season4) _))).
  vm_compute. discriminate.
Defined.

(** *** What a dry run does *)

Lemma fringe_process_dry_world (World : Type) (os : OS World)
      script_dir source_dir files :
  forall c k (st : state World),
    world (fst (OrganizeFringe.process script_dir source_dir true files c k st))
    = world st.
Proof.
  induction files as [|f rest IH]; intros c k st; [reflexivity|].
  rewrite FringeDriver.fringe_process_step.
  destruct (OrganizeFringe.parse_episode_info f) as [[season episode]|e];
    [|reflexivity].
  destruct (negb (truthy_opt season) || negb (truthy_opt episode)).
  { rewrite IH. reflexivity. }
  destruct (OrganizeFringe.get_episode_title f) as [title|e]; [|reflexivity].
  cbv zeta. rewrite IH. reflexivity.
Qed.

(** A dry run of organize_fringe.py leaves the world as it found it,
    whatever the source directory holds. *)
Theorem fringe_dry_run_world
        (World : Type) (os : OS World) (script_dir : path)
        (a : OrganizeFringe.args) (st : state World) :
  OrganizeFringe.a_dry_run a = true ->
  world (fst (OrganizeFringe.main script_dir a st)) = world st.
Proof.
  intros D. rewrite FringeDriver.fringe_main_cases. cbv zeta. rewrite D.
  destruct (negb (path_exists _ (world st))); [reflexivity|].
  destruct (iterdir _ (world st)) as [entries|e]; [|reflexivity].
  destruct (map d_name (filter OrganizeFringe.selected entries)) as [|f fs];
    [reflexivity|].
  match goal with
  | |- context [OrganizeFringe.process ?x1 ?x2 ?x3 ?x4 ?x5 ?x6 ?x7] =>
      pose proof (fringe_process_dry_world _ _ x1 x2 x4 x5 x6 x7) as W;
      destruct (OrganizeFringe.process x1 x2 x3 x4 x5 x6 x7) as [st2 [[c k]|e]]
  end; simpl in *; exact W.
Qed.

Lemma fringe_dry_run_world_witness :
  Toy.calls
    (world (fst (OrganizeFringe.main
                   Toy.home (OrganizeFringe.MkArgs ["FringeS04"] true)
                   (boot Toy.season4_world)))) = [].
Proof.
  exact (f_equal Toy.calls
           (fringe_dry_run_world Toy.toy Toy.toy_os Toy.home
              (OrganizeFringe.MkArgs ["FringeS04"] true)
              (boot Toy.season4_world) eq_refl)).
Defined.

Lemma process_dry_counts (World : Type) (os : OS World) self source_dir dest_base
      files :
  (forall f, In f files -> exists i, OrganizeShows.parse_episode_info self f = Ok i) ->
  forall c k (st : state World),
    exists D,
      OrganizeShows.process self source_dir dest_base true files c k st
      = (add st D,
         Ok (c + List.length (filter (parses self) files),
             k + List.length (filter (fun f => negb (parses self f)) files))).
Proof.
  induction files as [|f rest IH]; intros Hp c k st.
  - exists []. simpl. rewrite Driver.add_nil, !Nat.add_0_r. reflexivity.
  - assert (Hr : forall g, In g rest ->
                   exists i, OrganizeShows.parse_episode_info self g = Ok i)
      by (intros g Hg; apply Hp; right; exact Hg).
    destruct (Hp f (or_introl eq_refl)) as ([[season episode] title] & E).
    assert (Pf : parses self f = truthy_opt season && truthy_opt episode)
      by (unfold parses; rewrite E; reflexivity).
    rewrite Driver.process_step, E. simpl filter. rewrite Pf.
    destruct (truthy_opt season && truthy_opt episode) eqn:T.
    + assert (N : negb (truthy_opt season) || negb (truthy_opt episode) = false)
        by (apply andb_prop in T; destruct T as [-> ->]; reflexivity).
      rewrite N. cbv zeta. simpl negb. cbv iota.
      destruct (IH Hr (S c) k
                   (add st [Copying true f;
                            To (OrganizeShows.destination_rel
                                  self (OrganizeShows.str_of season)
                                  (OrganizeShows.str_of episode) title (suffix f));
                            Done true])) as (D & HD).
      eexists. rewrite HD, Driver.add_add. simpl List.length.
      rewrite Nat.add_succ_r. reflexivity.
    + assert (N : negb (truthy_opt season) || negb (truthy_opt episode) = true)
        by (destruct (truthy_opt season), (truthy_opt episode);
            simpl in *; congruence).
      rewrite N. simpl negb. cbv iota.
      destruct (IH Hr c (S k) (add st [Skipping f])) as (D & HD).
      eexists. rewrite HD, Driver.add_add. simpl List.length.
      rewrite Nat.add_succ_r. reflexivity.
Qed.

(** In a dry run of organize_shows.py that finds files to process and in
    which no file name makes the matcher raise, the summary reports as
    "would copy" the number of selected names from which a season and an
    episode are read, and as skipped the number of the other selected
    names. *)
Theorem dry_run_counts
        (World : Type) (os : OS World) (script_dir : path)
        (self : OrganizeShows.ShowOrganizer) (source_dir : path)
        (dest_parent : option path) (w : World) (entries : list dirent) :
  path_exists (source_of script_dir source_dir) w = true ->
  iterdir (source_of script_dir source_dir) w = Ok entries ->
  filter OrganizeShows.selected entries <> [] ->
  (forall e, In e entries -> OrganizeShows.selected e = true ->
             exists i, OrganizeShows.parse_episode_info self (d_name e) = Ok i) ->
  counts (stdout (fst (OrganizeShows.organize script_dir self source_dir dest_parent
                                              true (boot w))))
  = Some (List.length
            (filter (parses self)
                    (map d_name (filter OrganizeShows.selected entries))),
          List.length
            (filter (fun f => negb (parses self f))
                    (map d_name (filter OrganizeShows.selected entries)))).
Proof.
  intros He Hi Hne Hp.
  rewrite Driver.organize_cases. cbv zeta. simpl world. rewrite He, Hi.
  simpl negb. cbv iota.
  set (names := map d_name (filter OrganizeShows.selected entries)).
  assert (Hn : names <> [])
    by (unfold names; destruct (filter OrganizeShows.selected entries);
        simpl; congruence).
  destruct names as [|f fs] eqn:En; [congruence|]. rewrite <- En.
  assert (Hs : forall g, In g (sorted names) ->
                 exists i, OrganizeShows.parse_episode_info self g = Ok i).
  { intros g Hg. apply (Permutation_in _ (sorted_perm names)) in Hg.
    unfold names in Hg. apply in_map_iff in Hg. destruct Hg as (e & <- & Hin).
    apply filter_In in Hin. destruct Hin as [Hin Hsel]. exact (Hp e Hin Hsel). }
  destruct (process_dry_counts World os self
              (source_of script_dir source_dir)
              (dest_base_of script_dir self dest_parent) (sorted names) Hs 0 0
              (add (add (boot w)
                        (preamble script_dir self source_dir dest_parent true))
                   [Found (List.length names)])) as (D & HD).
  rewrite HD. cbv iota beta. cbn [fst]. unfold add at 1. cbn [stdout].
  rewrite counts_app_summary.
  rewrite (Permutation_length (filter_perm (parses self) _ _ (sorted_perm names))).
  rewrite (Permutation_length
             (filter_perm (fun f => negb (parses self f)) _ _ (sorted_perm names))).
  reflexivity.
Qed.

Lemma dry_run_counts_witness :
  counts (stdout (fst (OrganizeShows.organize
                         Toy.home Samples.fringe ["FringeS04"] None true
                         (boot Toy.season4_unreadable))))
  = Some (2, 1).
Proof.
  refine (dry_run_counts Toy.toy Toy.toy_os Toy.home Samples.fringe
            ["FringeS04"] None Toy.season4_unreadable Toy.season4
            eq_refl eq_refl _ _).
  - vm_compute. discriminate.
  - intros e [<-|[<-|[<-|[<-|[<-|[<-|[]]]]]]] S;
      try (vm_compute in S; discriminate S);
      eexists; vm_compute; reflexivity.
Defined.

(** *** What a real run calls *)






(** *** Extensions *)

Lemma append_nonempty_l (x y : string) : x <> "" -> x +++ y <> "".
Proof. destruct x; simpl; [congruence|discriminate]. Qed.

Lemma shows_selected_suffix (e : dirent) :
  OrganizeShows.selected e = true -> suffix (d_name e) <> "".
Proof.
  intros H. apply shows_selected_iff in H. destruct H as (_ & I & _).
  intros Z. rewrite Z in I. simpl in I. intuition discriminate.
Qed.

Lemma fringe_selected_suffix (e : dirent) :
  OrganizeFringe.selected e = true -> suffix (d_name e) <> "".
Proof.
  intros H. apply fringe_selected_iff in H. destruct H as (_ & I & _).
  intros Z. rewrite Z in I. simpl in I. intuition discriminate.
Qed.

(** The name built for a selected entry has the extension of that entry,
    exactly as it is written there, whatever the show name, season,
    episode and title are (a title with dots included).  This holds for
    [create_jellyfin_filename] of both scripts. *)
Theorem extension_kept :
  (forall (self : OrganizeShows.ShowOrganizer) (season episode : string)
          (title : option string) (e : dirent),
      OrganizeShows.selected e = true ->
      suffix (OrganizeShows.create_jellyfin_filename
                self season episode title (suffix (d_name e)))
      = suffix (d_name e))
  /\ (forall (season episode : string) (title : option string) (e : dirent),
         OrganizeFringe.selected e = true ->
         suffix (OrganizeFringe.create_jellyfin_filename
                   season episode title (suffix (d_name e)))
         = suffix (d_name e)).
Proof.
  split.
  - intros self season episode title e H.
    apply shows_selected_suffix in H.
    unfold OrganizeShows.create_jellyfin_filename. cbv zeta.
    destruct (truthy_opt title); rewrite <- !append_assoc;
      apply suffix_append; auto;
      repeat match goal with
             | |- (_ +++ _) +++ _ <> "" => apply append_nonempty_l
             end;
      apply append_nonempty_r; discriminate.
  - intros season episode title e H.
    apply fringe_selected_suffix in H.
    unfold OrganizeFringe.create_jellyfin_filename.
    destruct (truthy_opt title); rewrite <- !append_assoc;
      apply suffix_append; auto;
      repeat match goal with
             | |- (_ +++ _) +++ _ <> "" => apply append_nonempty_l
             end;
      apply append_nonempty_l; discriminate.
Qed.

Lemma extension_kept_witness :
  suffix (OrganizeShows.create_jellyfin_filename
            Samples.fringe "04" "01" (Some "6:02 AM EST vol. 2")
            (suffix "Fringe S04E01 6:02 AM EST vol. 2 (1080p).MKV"))
  = suffix "Fringe S04E01 6:02 AM EST vol. 2 (1080p).MKV".
Proof.
  exact (proj1 extension_kept Samples.fringe "04" "01" (Some "6:02 AM EST vol. 2")
               (Toy.file "Fringe S04E01 6:02 AM EST vol. 2 (1080p).MKV") eq_refl).
Defined.

(** Every entry the scan of organize_fringe.py selects is selected by the
    scan of organize_shows.py as well. *)
Theorem fringe_scan_included (e : dirent) :
  OrganizeFringe.selected e = true -> OrganizeShows.selected e = true.
Proof.
  intros H. apply fringe_selected_iff in H. destruct H as (F & I & P).
  apply shows_selected_iff. split; [exact F|]. split; [|exact P].
  simpl in I. destruct I as [<-|[<-|[<-|[<-|[]]]]]; vm_compute; auto.
Qed.

Lemma fringe_scan_included_witness :
  OrganizeShows.selected (Toy.file "Fringe S04E01 Pilot (1080p).mkv") = true.
Proof.
  exact (fringe_scan_included (Toy.file "Fringe S04E01 Pilot (1080p).mkv") eq_refl).
Defined.

(** *** What a transcript reports *)

Lemma reported_app a b : reported (a ++ b) = reported a ++ reported b.
Proof.
  induction a as [|e a IH]; simpl; [reflexivity|].
  destruct e; simpl; rewrite ?IH; reflexivity.
Qed.

Lemma process_reports (World : Type) (os : OS World) self source_dir dest_base
      dry_run files :
  forall c k (st st' : state World) r,
    OrganizeShows.process self source_dir dest_base dry_run files c k st
    = (st', Ok r) ->
    exists D, stdout st' = stdout st ++ D /\ reported D = files.
Proof.
  induction files as [|f rest IH]; intros c k st st' r H.
  - simpl in H. injection H as <- _. exists []. rewrite app_nil_r. auto.
  - rewrite Driver.process_step in H.
    destruct (OrganizeShows.parse_episode_info self f)
      as [[[season episode] title]|e]; [|discriminate].
    destruct (negb (truthy_opt season) || negb (truthy_opt episode)).
    { apply IH in H. destruct H as (D & E & R). exists (Skipping f :: D).
      rewrite E. simpl. rewrite <- app_assoc, R. auto. }
    cbv zeta in H. destruct dry_run.
    { apply IH in H. destruct H as (D & E & R). eexists (_ :: _ :: _ :: D).
      rewrite E. simpl. rewrite <- app_assoc, R. split; reflexivity. }
    destruct (mkdir_p _ (world st)) as [w1 [[]|e]]; [|discriminate].
    destruct (copy2 _ _ w1) as [w2 [[]|e]];
      apply IH in H; destruct H as (D & E & R); eexists (_ :: _ :: _ :: D);
      rewrite E; simpl; rewrite <- app_assoc, R; split; reflexivity.
Qed.

Lemma fringe_process_reports (World : Type) (os : OS World) script_dir source_dir
      dry_run files :
  forall c k (st st' : state World) r,
    OrganizeFringe.process script_dir source_dir dry_run files c k st
    = (st', Ok r) ->
    exists D, stdout st' = stdout st ++ D /\ reported D = files.
Proof.
  induction files as [|f rest IH]; intros c k st st' r H.
  - simpl in H. injection H as <- _. exists []. rewrite app_nil_r. auto.
  - rewrite FringeDriver.fringe_process_step in H.
    destruct (OrganizeFringe.parse_episode_info f) as [[season episode]|e];
      [|discriminate].
    destruct (negb (truthy_opt season) || negb (truthy_opt episode)).
    { apply IH in H. destruct H as (D & E & R). exists (Skipping f :: D).
      rewrite E. simpl. rewrite <- app_assoc, R. auto. }
    destruct (OrganizeFringe.get_episode_title f) as [title|e]; [|discriminate].
    cbv zeta in H. destruct dry_run.
    { apply IH in H. destruct H as (D & E & R). eexists (_ :: _ :: _ :: D).
      rewrite E. simpl. rewrite <- app_assoc, R. split; reflexivity. }
    destruct (mkdir_p _ (world st)) as [w1 [[]|e]]; [|discriminate].
    destruct (copy2 _ _ w1) as [w2 [[]|e]];
      apply IH in H; destruct H as (D & E & R); eexists (_ :: _ :: _ :: D);
      rewrite E; simpl; rewrite <- app_assoc, R; split; reflexivity.
Qed.

(** When a run of either script, dry or real, comes to its end, its
    transcript names every selected entry of the source directory exactly
    once, in ascending order of the names, whether the file was copied,
    failed to copy or was unparseable. *)
Theorem every_file_reported :
  (forall (World : Type) (os : OS World) (script_dir : path)
          (self : OrganizeShows.ShowOrganizer) (source_dir : path)
          (dest_parent : option path) (dry_run : bool) (w : World)
          (st' : state World) (b : bool) (entries : list dirent),
      OrganizeShows.organize script_dir self source_dir dest_parent dry_run (boot w)
      = (st', Ok b) ->
      iterdir (source_of script_dir source_dir) w = Ok entries ->
      path_exists (source_of script_dir source_dir) w = true ->
      reported (stdout st')
      = sorted (map d_name (filter OrganizeShows.selected entries)))
  /\ (forall (World : Type) (os : OS World) (script_dir : path)
             (a : OrganizeFringe.args) (w : World)
             (st' : state World) (entries : list dirent),
         OrganizeFringe.main script_dir a (boot w) = (st', Ok tt) ->
         iterdir (fringe_source_of script_dir a) w = Ok entries ->
         path_exists (fringe_source_of script_dir a) w = true ->
         reported (stdout st')
         = sorted (map d_name (filter OrganizeFringe.selected entries))).
Proof.
  split.
  - intros World os script_dir self source_dir dest_parent dry_run w st' b entries
           H Hi He.
    rewrite Driver.organize_cases in H. cbv zeta in H. simpl world in H.
    rewrite He, Hi in H. simpl negb in H. cbv iota in H.
    destruct (map d_name (filter OrganizeShows.selected entries)) as [|f fs] eqn:F.
    { injection H as <- _. destruct dry_run; reflexivity. }
    destruct (OrganizeShows.process _ _ _ _ _ _ _ _) as [st2 [r|e]] eqn:P;
      [|discriminate].
    destruct r as [c k]. injection H as <- _.
    apply process_reports in P. destruct P as (D & E & R).
    unfold add at 1. cbn [stdout]. rewrite E, !reported_app, R.
    destruct dry_run; simpl; rewrite app_nil_r; reflexivity.
  - intros World os script_dir a w st' entries H Hi He.
    rewrite FringeDriver.fringe_main_cases in H. cbv zeta in H. simpl world in H.
    rewrite He, Hi in H. simpl negb in H. cbv iota in H.
    destruct (map d_name (filter OrganizeFringe.selected entries)) as [|f fs] eqn:F.
    { injection H as <-. unfold fringe_preamble.
      destruct (OrganizeFringe.a_dry_run a); reflexivity. }
    destruct (OrganizeFringe.process _ _ _ _ _ _ _) as [st2 [r|e]] eqn:P;
      [|discriminate].
    destruct r as [c k]. injection H as <-.
    apply fringe_process_reports in P. destruct P as (D & E & R).
    unfold add at 1. cbn [stdout]. rewrite E, !reported_app, R.
    unfold fringe_preamble.
    destruct (OrganizeFringe.a_dry_run a); simpl; rewrite app_nil_r; reflexivity.
Qed.

(** With a copy that fails, the three selected files are still reported
    once each, in order. *)
Lemma every_file_reported_witness :
  reported (stdout (fst Runs.unreadable_real))
  = sorted (map d_name (filter OrganizeShows.selected Toy.season4)).
Proof.
  refine (proj1 every_file_reported Toy.toy Toy.toy_os Toy.home Samples.fringe
                ["FringeS04"] None false Toy.season4_unreadable
                (fst Runs.unreadable_real) true Toy.season4 _ eq_refl eq_refl).
  vm_compute. reflexivity.
Defined.

End MoreRun.
